(** * setup_service: reconciliation of periodic tasks and Safe contract registries

    Shallow embedding of
    [safe_transaction_service/history/management/commands/setup_service.py]
    and proofs of the properties its specification states.

    The command talks to two collaborators that are not part of the file:
    the Django ORM (four tables) and the Ethereum client (one query).  The
    tables are part of an explicit world state that every operation threads
    through; the client's answer is an argument of [handle].

    A command either returns or raises.  The exceptions that matter are the
    one of the Ethereum client and [MultipleObjectsReturned], which
    [get_or_create] raises when its lookup matches several rows; the writes
    made before an exception stay, since the command opens no transaction. *)

From Stdlib Require Import ZArith String Ascii List Bool Lia.
From stdpp Require Import base option list strings gmap pretty.

Local Open Scope Z_scope.
Local Open Scope string_scope.

(** ** Python values and strings *)

(** A model attribute can hold whatever Python object is assigned to it; the
    command assigns both [str] and [int] objects to [version]. *)
Inductive pyval :=
  | PyStr (s : string)
  | PyInt (z : Z).

(** [a != s] for an attribute [a] and a [str] [s]: objects of different
    types are never equal. *)
Definition py_ne_str (a : pyval) (s : string) : bool :=
  match a with
  | PyStr t => negb (String.eqb t s)
  | PyInt _ => true
  end.

(** What a [CharField] writes to its column: [str(value)]. *)
Definition to_char (a : pyval) : string :=
  match a with
  | PyStr t => t
  | PyInt z => pretty z
  end.

(** [s.startswith(p)] *)
Definition startswith (p s : string) : bool := String.prefix p s.

(** [s.endswith(suffix)] *)
Definition endswith (s suffix : string) : bool :=
  let n := String.length s in
  let m := String.length suffix in
  (m <=? n)%nat && String.eqb (String.substring (n - m) m s) suffix.

(** ** Data model *)

(** The periods of [IntervalSchedule] ([IntervalSchedule.MINUTES], ...). *)
Inductive Period := DAYS | HOURS | MINUTES | SECONDS | MICROSECONDS.

Global Instance Period_eq_dec : EqDecision Period.
Proof. solve_decision. Defined.

Module CeleryTaskConfiguration.
Record t := {
  name : string;
  description : string;
  interval : Z;
  period : Period;
  enabled : bool
}.
End CeleryTaskConfiguration.

(** The two models of [django_celery_beat].  A table is the list of its rows
    in insertion order.  A row is identified by its position, which stands
    for the automatic primary key: a model instance is the pair of the
    position and the row's fields, and a foreign key is the position of the
    row it refers to.  Nothing forbids two rows with the same fields. *)
Module IntervalSchedule.
Record t := {
  every : Z;
  period : Period
}.
End IntervalSchedule.

Module PeriodicTask.
Record t := {
  task : string;
  name : string;
  interval : nat;   (* foreign key to IntervalSchedule *)
  enabled : bool
}.
End PeriodicTask.

Global Instance IntervalSchedule_eq_dec : EqDecision IntervalSchedule.t.
Proof. solve_decision. Defined.

Global Instance PeriodicTask_eq_dec : EqDecision PeriodicTask.t.
Proof. solve_decision. Defined.

(** Modelled from the spec: the models [SafeMasterCopy] and [ProxyFactory] of
    [history/models.py], which the command imports and which are not part of
    the file.  An entry has the columns the command names, and [address] is
    the unique key of its registry, so each registry is a finite map from the
    address to the other columns. *)
Module SafeMasterCopyRow.
Record t := {
  initial_block_number : Z;
  tx_block_number : Z;
  version : string;
  l2 : bool
}.
End SafeMasterCopyRow.

(** A [SafeMasterCopy] instance in memory. *)
Module SafeMasterCopy.
Record t := {
  address : string;
  initial_block_number : Z;
  tx_block_number : Z;
  version : pyval;
  l2 : bool
}.

Definition of_row (a : string) (r : SafeMasterCopyRow.t) : t :=
  {| address := a;
     initial_block_number := SafeMasterCopyRow.initial_block_number r;
     tx_block_number := SafeMasterCopyRow.tx_block_number r;
     version := PyStr (SafeMasterCopyRow.version r);
     l2 := SafeMasterCopyRow.l2 r |}.

(** [self.version = v] *)
Definition set_version (v : pyval) (self : t) : t :=
  {| address := address self;
     initial_block_number := initial_block_number self;
     tx_block_number := tx_block_number self;
     version := v;
     l2 := l2 self |}.
End SafeMasterCopy.

Module ProxyFactory.
Record t := {
  initial_block_number : Z;
  tx_block_number : Z
}.
End ProxyFactory.

Inductive Style := SUCCESS | WARNING.

Global Instance Style_eq_dec : EqDecision Style.
Proof. solve_decision. Defined.

(** The state the command runs in: the four tables and what was written to
    [self.stdout]. *)
Record World := {
  interval_schedules : list IntervalSchedule.t;
  periodic_tasks : list PeriodicTask.t;
  safe_master_copies : gmap string SafeMasterCopyRow.t;
  proxy_factories : gmap string ProxyFactory.t;
  stdout : list (Style * string)
}.

Definition set_interval_schedules (x : list IntervalSchedule.t) (w : World) : World :=
  {| interval_schedules := x; periodic_tasks := periodic_tasks w;
     safe_master_copies := safe_master_copies w;
     proxy_factories := proxy_factories w; stdout := stdout w |}.

Definition set_periodic_tasks (x : list PeriodicTask.t) (w : World) : World :=
  {| interval_schedules := interval_schedules w; periodic_tasks := x;
     safe_master_copies := safe_master_copies w;
     proxy_factories := proxy_factories w; stdout := stdout w |}.

Definition set_safe_master_copies (x : gmap string SafeMasterCopyRow.t) (w : World) : World :=
  {| interval_schedules := interval_schedules w; periodic_tasks := periodic_tasks w;
     safe_master_copies := x;
     proxy_factories := proxy_factories w; stdout := stdout w |}.

Definition set_proxy_factories (x : gmap string ProxyFactory.t) (w : World) : World :=
  {| interval_schedules := interval_schedules w; periodic_tasks := periodic_tasks w;
     safe_master_copies := safe_master_copies w;
     proxy_factories := x; stdout := stdout w |}.

Definition set_stdout (x : list (Style * string)) (w : World) : World :=
  {| interval_schedules := interval_schedules w; periodic_tasks := periodic_tasks w;
     safe_master_copies := safe_master_copies w;
     proxy_factories := proxy_factories w; stdout := x |}.

(** ** Commands: state and exceptions *)

Inductive Exn :=
  | MultipleObjectsReturned
  | KeyError (k : string)
  | ConnectivityError.

Inductive outcome (A : Type) :=
  | Returned (a : A)
  | Raised (e : Exn).
Arguments Returned {A} a.
Arguments Raised {A} e.

(** A command returns or raises; either way the writes it has made stay
    (the command does not run in a transaction). *)
Definition Cmd (A : Type) : Type := World -> World * outcome A.

Definition ret {A} (a : A) : Cmd A := fun w => (w, Returned a).

Definition raise {A} (e : Exn) : Cmd A := fun w => (w, Raised e).

Definition bind {A B} (c : Cmd A) (k : A -> Cmd B) : Cmd B :=
  fun w =>
    match c w with
    | (w', Returned a) => k a w'
    | (w', Raised e) => (w', Raised e)
    end.

Notation "x <- c ;; k" := (bind c (fun x => k))
  (at level 100, c at next level, right associativity).
Notation "c ;; k" := (bind c (fun _ => k))
  (at level 100, right associativity).

(** [for x in l: body(x)] *)
Fixpoint for_each {A} (l : list A) (body : A -> Cmd unit) : Cmd unit :=
  match l with
  | [] => ret tt
  | x :: l' => body x ;; for_each l' body
  end.

(** [self.stdout.write(self.style.S(msg))] *)
Definition stdout_write (s : Style) (msg : string) : Cmd unit :=
  fun w => (set_stdout (stdout w ++ [(s, msg)]) w, Returned tt).

(** ** The ORM operations the command uses *)

(** The rows of a table that satisfy a lookup, with their positions. *)
Fixpoint rows_where {A} (P : A -> bool) (i : nat) (tbl : list A) : list (nat * A) :=
  match tbl with
  | [] => []
  | r :: tbl' =>
      if P r then (i, r) :: rows_where P (S i) tbl' else rows_where P (S i) tbl'
  end.

Inductive lookup_result (A : Type) :=
  | DoesNotExist
  | Found (i : nat) (r : A)
  | MultipleFound.
Arguments DoesNotExist {A}.
Arguments Found {A} i r.
Arguments MultipleFound {A}.

(** [objects.get(...)]: the row when exactly one matches. *)
Definition objects_get {A} (P : A -> bool) (tbl : list A) : lookup_result A :=
  match rows_where P 0 tbl with
  | [] => DoesNotExist
  | [(i, r)] => Found i r
  | _ => MultipleFound
  end.

Definition interval_matches (every : Z) (period : Period) (r : IntervalSchedule.t) : bool :=
  bool_decide (IntervalSchedule.every r = every /\ IntervalSchedule.period r = period).

(** [IntervalSchedule.objects.get_or_create(every=every, period=period)] *)
Definition IntervalSchedule_get_or_create (every : Z) (period : Period)
  : Cmd (nat * IntervalSchedule.t * bool) :=
  fun w =>
    match objects_get (interval_matches every period) (interval_schedules w) with
    | Found i r => (w, Returned (i, r, false))
    | DoesNotExist =>
        let r := {| IntervalSchedule.every := every; IntervalSchedule.period := period |} in
        (set_interval_schedules (interval_schedules w ++ [r]) w,
         Returned (length (interval_schedules w), r, true))
    | MultipleFound => (w, Raised MultipleObjectsReturned)
    end.

Definition task_matches (task : string) (r : PeriodicTask.t) : bool :=
  String.eqb (PeriodicTask.task r) task.

(** [PeriodicTask.objects.get_or_create(task=task, defaults={"name": name,
    "interval": interval, "enabled": enabled})] *)
Definition PeriodicTask_get_or_create (task name : string) (interval : nat) (enabled : bool)
  : Cmd (nat * PeriodicTask.t * bool) :=
  fun w =>
    match objects_get (task_matches task) (periodic_tasks w) with
    | Found i r => (w, Returned (i, r, false))
    | DoesNotExist =>
        let r := {| PeriodicTask.task := task; PeriodicTask.name := name;
                    PeriodicTask.interval := interval;
                    PeriodicTask.enabled := enabled |} in
        (set_periodic_tasks (periodic_tasks w ++ [r]) w,
         Returned (length (periodic_tasks w), r, true))
    | MultipleFound => (w, Raised MultipleObjectsReturned)
    end.

(** [periodic_task.save()]: writes every field of the instance to its row. *)
Definition PeriodicTask_save (i : nat) (r : PeriodicTask.t) : Cmd unit :=
  fun w => (set_periodic_tasks (<[i := r]> (periodic_tasks w)) w, Returned tt).

(** [PeriodicTask.objects.filter(task__startswith=prefix).delete()] *)
Definition PeriodicTask_delete_startswith (prefix : string) : Cmd unit :=
  fun w =>
    (set_periodic_tasks
       (List.filter (fun r => negb (startswith prefix (PeriodicTask.task r)))
          (periodic_tasks w)) w,
     Returned tt).

(** [SafeMasterCopy.objects.get_or_create(address=address, defaults={...})] *)
Definition SafeMasterCopy_get_or_create (address : string) (defaults : SafeMasterCopyRow.t)
  : Cmd (SafeMasterCopy.t * bool) :=
  fun w =>
    match safe_master_copies w !! address with
    | Some r => (w, Returned (SafeMasterCopy.of_row address r, false))
    | None =>
        (set_safe_master_copies (<[address := defaults]> (safe_master_copies w)) w,
         Returned (SafeMasterCopy.of_row address defaults, true))
    end.

(** The column [field] of the row as [save] writes it from the instance. *)
Definition write_field (self : SafeMasterCopy.t) (r : SafeMasterCopyRow.t) (field : string)
  : SafeMasterCopyRow.t :=
  if String.eqb field "initial_block_number" then
    {| SafeMasterCopyRow.initial_block_number := SafeMasterCopy.initial_block_number self;
       SafeMasterCopyRow.tx_block_number := SafeMasterCopyRow.tx_block_number r;
       SafeMasterCopyRow.version := SafeMasterCopyRow.version r;
       SafeMasterCopyRow.l2 := SafeMasterCopyRow.l2 r |}
  else if String.eqb field "tx_block_number" then
    {| SafeMasterCopyRow.initial_block_number := SafeMasterCopyRow.initial_block_number r;
       SafeMasterCopyRow.tx_block_number := SafeMasterCopy.tx_block_number self;
       SafeMasterCopyRow.version := SafeMasterCopyRow.version r;
       SafeMasterCopyRow.l2 := SafeMasterCopyRow.l2 r |}
  else if String.eqb field "version" then
    {| SafeMasterCopyRow.initial_block_number := SafeMasterCopyRow.initial_block_number r;
       SafeMasterCopyRow.tx_block_number := SafeMasterCopyRow.tx_block_number r;
       SafeMasterCopyRow.version := to_char (SafeMasterCopy.version self);
       SafeMasterCopyRow.l2 := SafeMasterCopyRow.l2 r |}
  else if String.eqb field "l2" then
    {| SafeMasterCopyRow.initial_block_number := SafeMasterCopyRow.initial_block_number r;
       SafeMasterCopyRow.tx_block_number := SafeMasterCopyRow.tx_block_number r;
       SafeMasterCopyRow.version := SafeMasterCopyRow.version r;
       SafeMasterCopyRow.l2 := SafeMasterCopy.l2 self |}
  else r.

(** [safe_master_copy.save(update_fields=fields)]: an UPDATE of the listed
    columns of the row with the instance's primary key. *)
Definition SafeMasterCopy_save (self : SafeMasterCopy.t) (update_fields : list string)
  : Cmd unit :=
  fun w =>
    (set_safe_master_copies
       (alter (fun r => fold_left (write_field self) update_fields r)
          (SafeMasterCopy.address self) (safe_master_copies w)) w,
     Returned tt).

(** [ProxyFactory.objects.get_or_create(address=address, defaults={...})] *)
Definition ProxyFactory_get_or_create (address : string) (defaults : ProxyFactory.t)
  : Cmd (ProxyFactory.t * bool) :=
  fun w =>
    match proxy_factories w !! address with
    | Some r => (w, Returned (r, false))
    | None =>
        (set_proxy_factories (<[address := defaults]> (proxy_factories w)) w,
         Returned (defaults, true))
    end.

(** [key in d] and [d[key]] for a [dict]. *)
Definition dict_contains {V} (key : string) (d : gmap string V) : bool :=
  bool_decide (is_Some (d !! key)).

Definition dict_getitem {V} (d : gmap string V) (key : string) : Cmd V :=
  match d !! key with
  | Some v => ret v
  | None => raise (KeyError key)
  end.

(** ** The command *)

(** [CeleryTaskConfiguration.create_task] *)
Definition create_task (self : CeleryTaskConfiguration.t)
  : Cmd (nat * PeriodicTask.t * bool) :=
  got <-
     IntervalSchedule_get_or_create
       (CeleryTaskConfiguration.interval self) (CeleryTaskConfiguration.period self) ;;
  let '(interval_schedule, _, _) := got in
  got <-
     PeriodicTask_get_or_create (CeleryTaskConfiguration.name self)
       (CeleryTaskConfiguration.description self)
       interval_schedule
       (CeleryTaskConfiguration.enabled self) ;;
  let '(pk, periodic_task, created) := got in
  if negb created then
    let periodic_task :=
      {| PeriodicTask.task := PeriodicTask.task periodic_task;
         PeriodicTask.name := CeleryTaskConfiguration.description self;
         PeriodicTask.interval := interval_schedule;
         PeriodicTask.enabled := CeleryTaskConfiguration.enabled self |} in
    PeriodicTask_save pk periodic_task ;;
    ret (pk, periodic_task, created)
  else ret (pk, periodic_task, created).

Definition mk_task (name description : string) (interval : Z) (period : Period)
  (enabled : bool) : CeleryTaskConfiguration.t :=
  {| CeleryTaskConfiguration.name := name;
     CeleryTaskConfiguration.description := description;
     CeleryTaskConfiguration.interval := interval;
     CeleryTaskConfiguration.period := period;
     CeleryTaskConfiguration.enabled := enabled |}.

(** [TASKS]; [ETH_L2_NETWORK] is [settings.ETH_L2_NETWORK]. *)
Definition TASKS (ETH_L2_NETWORK : bool) : list CeleryTaskConfiguration.t :=
  [ mk_task "safe_transaction_service.history.tasks.check_reorgs_task"
      "Check Reorgs" 3 MINUTES true;
    mk_task "safe_transaction_service.history.tasks.check_sync_status_task"
      "Check Sync status" 10 MINUTES true;
    mk_task "safe_transaction_service.history.tasks.index_internal_txs_task"
      "Index Internal Txs" 13 SECONDS (negb ETH_L2_NETWORK);
    mk_task "safe_transaction_service.history.tasks.index_safe_events_task"
      "Index Safe events (L2)" 13 SECONDS ETH_L2_NETWORK;
    mk_task "safe_transaction_service.history.tasks.index_new_proxies_task"
      "Index new Proxies" 15 SECONDS ETH_L2_NETWORK;
    mk_task "safe_transaction_service.history.tasks.index_erc20_events_task"
      "Index ERC20/721 Events" 14 SECONDS true;
    mk_task "safe_transaction_service.history.tasks.index_erc20_events_out_of_sync_task"
      "Index out of sync ERC20/ERC721 Events" 5 MINUTES true;
    mk_task "safe_transaction_service.history.tasks.reindex_last_hours_task"
      "Reindex master copies for the last hours" 110 MINUTES true;
    mk_task "safe_transaction_service.history.tasks.process_decoded_internal_txs_task"
      "Process Internal Txs" 20 MINUTES true;
    mk_task "safe_transaction_service.contracts.tasks.create_missing_contracts_with_metadata_task"
      "Index contract names and ABIs" 1 HOURS true;
    mk_task "safe_transaction_service.contracts.tasks.reindex_contracts_without_metadata_task"
      "Reindex contracts with missing names or ABIs" 7 DAYS true;
    mk_task "safe_transaction_service.tokens.tasks.fix_pool_tokens_task"
      "Fix Pool Token Names" 1 HOURS true ].

Definition MASTER_COPIES : gmap string (list (string * Z * string)) :=
  {[ "7001" :=
       [ ("0xd9Db270c1B5E3Bd161E8c8503c55cEABeE709552", 9242, "1.3.0");
         ("0x3E5c63644E683549055b9Be8653de26E0B4CD36E", 9239, "1.3.0+L2") ] ]}.

Definition PROXY_FACTORIES : gmap string (list (string * Z)) :=
  {[ "7001" := [ ("0xa6B71E26C5e0845f74c812102Ca7114b6a896AB2", 9223) ] ]}.

(** The body of the loop of [Command._setup_safe_master_copies]. *)
Definition setup_safe_master_copy (decl : string * Z * string) : Cmd unit :=
  let '(address, initial_block_number, version) := decl in
  got <-
     SafeMasterCopy_get_or_create address
       {| SafeMasterCopyRow.initial_block_number := initial_block_number;
          SafeMasterCopyRow.tx_block_number := initial_block_number;
          SafeMasterCopyRow.version := version;
          SafeMasterCopyRow.l2 := endswith version "+L2" |} ;;
  let '(safe_master_copy, _) := got in
  if py_ne_str (SafeMasterCopy.version safe_master_copy) version
     || negb (Z.eqb (SafeMasterCopy.initial_block_number safe_master_copy)
                initial_block_number)
  then
    let safe_master_copy :=
      SafeMasterCopy.set_version (PyInt initial_block_number) safe_master_copy in
    let safe_master_copy :=
      SafeMasterCopy.set_version (PyStr version) safe_master_copy in
    SafeMasterCopy_save safe_master_copy ["initial_block_number"; "version"]
  else ret tt.

(** [Command._setup_safe_master_copies] *)
Definition _setup_safe_master_copies (safe_master_copies : list (string * Z * string))
  : Cmd unit :=
  for_each safe_master_copies setup_safe_master_copy.

(** The body of the loop of [Command._setup_safe_proxy_factories]. *)
Definition setup_safe_proxy_factory (decl : string * Z) : Cmd unit :=
  let '(address, initial_block_number) := decl in
  ProxyFactory_get_or_create address
    {| ProxyFactory.initial_block_number := initial_block_number;
       ProxyFactory.tx_block_number := initial_block_number |} ;;
  ret tt.

(** [Command._setup_safe_proxy_factories] *)
Definition _setup_safe_proxy_factories (safe_proxy_factories : list (string * Z))
  : Cmd unit :=
  for_each safe_proxy_factories setup_safe_proxy_factory.

(** The reserved prefix of the task names the command owns. *)
Definition NAMESPACE : string := "safe_transaction_service".

(** The body of the loop over [TASKS] in [Command.handle]. *)
Definition handle_task (task : CeleryTaskConfiguration.t) : Cmd unit :=
  got <- create_task task ;;
  let '(_, _, created) := got in
  if created : bool then
    stdout_write SUCCESS
      ("Created Periodic Task " +:+ CeleryTaskConfiguration.name task)
  else
    stdout_write SUCCESS
      ("Task " +:+ CeleryTaskConfiguration.name task +:+ " was already created").

Section Command.
(** [handle] reads the module-level tables [TASKS], [MASTER_COPIES] and
    [PROXY_FACTORIES]; they are variables here so that the properties
    below hold for every declaration set. *)
Variable tasks : list CeleryTaskConfiguration.t.
Variable master_copies : gmap string (list (string * Z * string)).
Variable proxy_factories_decl : gmap string (list (string * Z)).

(** Lines 140-155 of [Command.handle]: the tasks. *)
Definition handle_tasks : Cmd unit :=
  stdout_write SUCCESS "Removing old tasks" ;;
  PeriodicTask_delete_startswith NAMESPACE ;;
  stdout_write SUCCESS "Old tasks were removed" ;;
  for_each tasks handle_task.

(** Lines 157-179 of [Command.handle]: the contract addresses.
    [net_version] is what [EthereumClientProvider().w3.net.version]
    answers: the network identifier, or the exception it raises. *)
Definition handle_addresses (net_version : outcome string) : Cmd unit :=
  stdout_write SUCCESS "Setting up Safe Contract Addresses" ;;
  ethereum_network_id <- (fun w => (w, net_version)) ;;
  (if dict_contains ethereum_network_id master_copies then
     stdout_write SUCCESS
       ("Setting up " +:+ ethereum_network_id +:+ " safe addresses") ;;
     decls <- dict_getitem master_copies ethereum_network_id ;;
     _setup_safe_master_copies decls
   else ret tt) ;;
  (if dict_contains ethereum_network_id proxy_factories_decl then
     stdout_write SUCCESS
       ("Setting up " +:+ ethereum_network_id +:+ " proxy factory addresses") ;;
     decls <- dict_getitem proxy_factories_decl ethereum_network_id ;;
     _setup_safe_proxy_factories decls
   else ret tt) ;;
  if negb (dict_contains ethereum_network_id master_copies
           && dict_contains ethereum_network_id proxy_factories_decl)
  then stdout_write WARNING "Cannot detect a valid ethereum-network"
  else ret tt.

(** [Command.handle] over the given tables. *)
Definition handle_with (net_version : outcome string) : Cmd unit :=
  handle_tasks ;;
  handle_addresses net_version.
End Command.

(** [Command.handle] *)
Definition handle (ETH_L2_NETWORK : bool) (net_version : outcome string) : Cmd unit :=
  handle_with (TASKS ETH_L2_NETWORK) MASTER_COPIES PROXY_FACTORIES net_version.

(** * Definitions used by the statements and proofs *)

(** ** The master-copy registry *)

(** The row [save] leaves when the drift branch runs on the stored row [r]. *)
Definition with_version (version : string) (r : SafeMasterCopyRow.t) : SafeMasterCopyRow.t :=
  {| SafeMasterCopyRow.initial_block_number := SafeMasterCopyRow.initial_block_number r;
     SafeMasterCopyRow.tx_block_number := SafeMasterCopyRow.tx_block_number r;
     SafeMasterCopyRow.version := version;
     SafeMasterCopyRow.l2 := SafeMasterCopyRow.l2 r |}.

(** The defaults [get_or_create] gets for a declaration. *)
Definition master_copy_defaults (initial_block_number : Z) (version : string)
  : SafeMasterCopyRow.t :=
  {| SafeMasterCopyRow.initial_block_number := initial_block_number;
     SafeMasterCopyRow.tx_block_number := initial_block_number;
     SafeMasterCopyRow.version := version;
     SafeMasterCopyRow.l2 := endswith version "+L2" |}.

(** What one iteration of the loop does to the entry of its address. *)
Definition master_copy_entry (initial_block_number : Z) (version : string)
  (o : option SafeMasterCopyRow.t) : SafeMasterCopyRow.t :=
  match o with
  | None => master_copy_defaults initial_block_number version
  | Some r => with_version version r
  end.

(** What one iteration of the loop does to the registry. *)
Definition master_copy_step (decl : string * Z * string)
  (m : gmap string SafeMasterCopyRow.t) : gmap string SafeMasterCopyRow.t :=
  let '(address, initial_block_number, version) := decl in
  <[address := master_copy_entry initial_block_number version (m !! address)]> m.

(** The entry of [a] through the declarations, one after the other. *)
Definition master_copy_entries (a : string) (decls : list (string * Z * string))
  (o : option SafeMasterCopyRow.t) : option SafeMasterCopyRow.t :=
  foldl (fun o '(address, initial_block_number, version) =>
           if decide (address = a)
           then Some (master_copy_entry initial_block_number version o)
           else o) o decls.

(** ** The proxy-factory registry *)

(** What one iteration of the loop does to the registry. *)
Definition proxy_factory_step (decl : string * Z)
  (m : gmap string ProxyFactory.t) : gmap string ProxyFactory.t :=
  let '(address, initial_block_number) := decl in
  match m !! address with
  | Some _ => m
  | None => <[address := {| ProxyFactory.initial_block_number := initial_block_number;
                            ProxyFactory.tx_block_number := initial_block_number |}]> m
  end.

(** The entry of [a] through the proxy-factory declarations. *)
Definition proxy_factory_entries (a : string) (decls : list (string * Z))
  (o : option ProxyFactory.t) : option ProxyFactory.t :=
  foldl (fun o '(address, initial_block_number) =>
           if decide (address = a)
           then Some (default {| ProxyFactory.initial_block_number := initial_block_number;
                                 ProxyFactory.tx_block_number := initial_block_number |} o)
           else o) o decls.

(** ** The task tables *)

(** The schedule a declaration asks for. *)
Definition declared_schedule (d : CeleryTaskConfiguration.t) : IntervalSchedule.t :=
  {| IntervalSchedule.every := CeleryTaskConfiguration.interval d;
     IntervalSchedule.period := CeleryTaskConfiguration.period d |}.

Definition schedule_matches (r : IntervalSchedule.t) : IntervalSchedule.t -> bool :=
  interval_matches (IntervalSchedule.every r) (IntervalSchedule.period r).

(** The task row of a declaration whose schedule is the row at position [s]. *)
Definition declared_row (d : CeleryTaskConfiguration.t) (s : nat) : PeriodicTask.t :=
  {| PeriodicTask.task := CeleryTaskConfiguration.name d;
     PeriodicTask.name := CeleryTaskConfiguration.description d;
     PeriodicTask.interval := s;
     PeriodicTask.enabled := CeleryTaskConfiguration.enabled d |}.

(** How many stored task records have the key [key]. *)
Definition key_count (key : string) (T : list PeriodicTask.t) : nat :=
  length (List.filter (task_matches key) T).

(** How many stored schedules are the schedule [r]. *)
Definition schedule_count (r : IntervalSchedule.t) (S : list IntervalSchedule.t) : nat :=
  length (List.filter (schedule_matches r) S).

(** The position [get_or_create] returns for the schedule [r], whether it
    created the row, and the schedule table it leaves. *)
Definition schedule_created (r : IntervalSchedule.t) (S : list IntervalSchedule.t) : bool :=
  match objects_get (schedule_matches r) S with
  | DoesNotExist => true
  | _ => false
  end.

Definition schedule_position (r : IntervalSchedule.t) (S : list IntervalSchedule.t) : nat :=
  match objects_get (schedule_matches r) S with
  | Found i _ => i
  | _ => length S
  end.

Definition with_schedule (r : IntervalSchedule.t) (S : list IntervalSchedule.t)
  : list IntervalSchedule.t :=
  match objects_get (schedule_matches r) S with
  | DoesNotExist => (S ++ [r])%list
  | _ => S
  end.

(** The position [create_task] returns for the task row [row], whether it
    created it, and the task table it leaves. *)
Definition task_position (key : string) (T : list PeriodicTask.t) : nat :=
  match objects_get (task_matches key) T with
  | Found i _ => i
  | _ => length T
  end.

Definition task_created (key : string) (T : list PeriodicTask.t) : bool :=
  match objects_get (task_matches key) T with
  | DoesNotExist => true
  | _ => false
  end.

Definition with_task (row : PeriodicTask.t) (T : list PeriodicTask.t) : list PeriodicTask.t :=
  match objects_get (task_matches (PeriodicTask.task row)) T with
  | DoesNotExist => (T ++ [row])%list
  | Found i _ => <[i := row]> T
  | MultipleFound => T
  end.

(** What [handle] writes about a task. *)
Definition task_message (d : CeleryTaskConfiguration.t) (created : bool) : Style * string :=
  if created
  then (SUCCESS, "Created Periodic Task " +:+ CeleryTaskConfiguration.name d)
  else (SUCCESS, "Task " +:+ CeleryTaskConfiguration.name d +:+ " was already created").

(** The world one iteration of the loop over the tasks leaves when no lookup
    finds several rows. *)
Definition task_step (d : CeleryTaskConfiguration.t) (w : World) : World :=
  let S := interval_schedules w in
  let T := periodic_tasks w in
  let s := schedule_position (declared_schedule d) S in
  {| interval_schedules := with_schedule (declared_schedule d) S;
     periodic_tasks := with_task (declared_row d s) T;
     safe_master_copies := safe_master_copies w;
     proxy_factories := proxy_factories w;
     stdout := (stdout w ++
                [task_message d (task_created (CeleryTaskConfiguration.name d) T)])%list |}.

(** The task table after the removal of the records of the namespace. *)
Definition wipe (T : list PeriodicTask.t) : list PeriodicTask.t :=
  List.filter (fun r => negb (startswith NAMESPACE (PeriodicTask.task r))) T.

(** The world after lines 140-144 of [handle]. *)
Definition after_wipe (w : World) : World :=
  {| interval_schedules := interval_schedules w;
     periodic_tasks := wipe (periodic_tasks w);
     safe_master_copies := safe_master_copies w;
     proxy_factories := proxy_factories w;
     stdout := ((stdout w ++ [(SUCCESS, "Removing old tasks")]) ++
                [(SUCCESS, "Old tasks were removed")])%list |}.

(** No lookup of the loop over [ds] can find several rows in [w]: every
    declared interval is the interval of at most one stored schedule, and
    every declared name is the key of at most one stored task. *)
Definition loop_lookups_unique (ds : list CeleryTaskConfiguration.t) (w : World) : Prop :=
  Forall (fun d =>
            (schedule_count (declared_schedule d) (interval_schedules w) <= 1)%nat /\
            (key_count (CeleryTaskConfiguration.name d) (periodic_tasks w) <= 1)%nat) ds.

(** The same for a run of [handle]: the task table counts after the removal
    of the records of the namespace. *)
Definition lookups_unique (tasks : list CeleryTaskConfiguration.t) (w : World) : Prop :=
  loop_lookups_unique tasks (after_wipe w).

(** Every declared name is in the namespace. *)
Definition namespaced (tasks : list CeleryTaskConfiguration.t) : Prop :=
  Forall (fun d => startswith NAMESPACE (CeleryTaskConfiguration.name d) = true) tasks.

(** ** The contract addresses of a network *)

(** In the words of the specification: the network is recognized when it is
    a key of the master-copy table or a key of the proxy-factory table.  The
    command's own test is the last condition of [handle_addresses]. *)
Definition recognized {V1 V2} (network_id : string)
  (master_copies : gmap string V1) (proxy_factories_decl : gmap string V2) : bool :=
  dict_contains network_id master_copies || dict_contains network_id proxy_factories_decl.

(** The warning of line 178. *)
Definition UNRECOGNIZED_NETWORK : Style * string :=
  (WARNING, "Cannot detect a valid ethereum-network").

(** What lines 157-179 of [handle] write for the network [network_id]. *)
Definition address_messages (master_copies : gmap string (list (string * Z * string)))
  (proxy_factories_decl : gmap string (list (string * Z))) (network_id : string)
  : list (Style * string) :=
  ([(SUCCESS, "Setting up Safe Contract Addresses")] ++
   (if dict_contains network_id master_copies
    then [(SUCCESS, "Setting up " +:+ network_id +:+ " safe addresses")] else []) ++
   (if dict_contains network_id proxy_factories_decl
    then [(SUCCESS, "Setting up " +:+ network_id +:+ " proxy factory addresses")] else []) ++
   (if negb (dict_contains network_id master_copies
             && dict_contains network_id proxy_factories_decl)
    then [UNRECOGNIZED_NETWORK] else []))%list.

(** The world lines 157-179 of [handle] leave for the network [network_id]. *)
Definition addresses_world (master_copies : gmap string (list (string * Z * string)))
  (proxy_factories_decl : gmap string (list (string * Z))) (network_id : string)
  (w : World) : World :=
  {| interval_schedules := interval_schedules w;
     periodic_tasks := periodic_tasks w;
     safe_master_copies :=
       foldl (fun m d => master_copy_step d m) (safe_master_copies w)
         (default [] (master_copies !! network_id));
     proxy_factories :=
       foldl (fun m d => proxy_factory_step d m) (proxy_factories w)
         (default [] (proxy_factories_decl !! network_id));
     stdout := (stdout w ++
                address_messages master_copies proxy_factories_decl network_id)%list |}.

(** The world and the outcome of lines 157-179 of [handle]. *)
Definition addresses_result (master_copies : gmap string (list (string * Z * string)))
  (proxy_factories_decl : gmap string (list (string * Z))) (net_version : outcome string)
  (w : World) : World * outcome unit :=
  match net_version with
  | Returned network_id =>
      (addresses_world master_copies proxy_factories_decl network_id w, Returned tt)
  | Raised e =>
      (set_stdout (stdout w ++ [(SUCCESS, "Setting up Safe Contract Addresses")])%list w,
       Raised e)
  end.

(** ** What a run reports *)

(** What the command [c] writes when it runs in [w]. *)
Definition run_output {A} (c : Cmd A) (w : World) : list (Style * string) :=
  drop (length (stdout w)) (stdout (c w).1).

(** A line that reports a task as created (line 150), and one that reports
    it as already there (line 154). *)
Definition is_created_message (m : Style * string) : bool :=
  startswith "Created Periodic Task " m.2.

Definition is_updated_message (m : Style * string) : bool :=
  startswith "Task " m.2 && endswith m.2 " was already created".

(** The numbers of tasks a run reports as created and as already there. *)
Definition created_count (out : list (Style * string)) : nat :=
  length (List.filter is_created_message out).

Definition updated_count (out : list (Style * string)) : nat :=
  length (List.filter is_updated_message out).

(** A command that leaves the two registries as they are, whether it returns
    or raises. *)
Definition keeps_registries {A} (c : Cmd A) : Prop :=
  forall w, safe_master_copies (c w).1 = safe_master_copies w /\
            proxy_factories (c w).1 = proxy_factories w.

(** ** Stores to run the command in *)

(** The store before the first run. *)
Definition empty_world : World :=
  {| interval_schedules := []; periodic_tasks := [];
     safe_master_copies := ∅; proxy_factories := ∅; stdout := [] |}.

(** A registry that holds the first master copy of network 7001 as an
    earlier release declared it. *)
Definition stale_master_copy_world : World :=
  set_safe_master_copies
    {[ "0xd9Db270c1B5E3Bd161E8c8503c55cEABeE709552" :=
         {| SafeMasterCopyRow.initial_block_number := 9000;
            SafeMasterCopyRow.tx_block_number := 9100;
            SafeMasterCopyRow.version := "1.2.0";
            SafeMasterCopyRow.l2 := false |} ]}
    empty_world.

(** A registry that holds the proxy factory of network 7001 with another
    initial block than the declared one. *)
Definition stale_proxy_factory_world : World :=
  set_proxy_factories
    {[ "0xa6B71E26C5e0845f74c812102Ca7114b6a896AB2" :=
         {| ProxyFactory.initial_block_number := 9000;
            ProxyFactory.tx_block_number := 9100 |} ]}
    empty_world.

(** Tables of an earlier run: the schedule of every three minutes, a record
    of the namespace under an older label and a record beside the
    namespace. *)
Definition stale_task_world : World :=
  {| interval_schedules :=
       [ {| IntervalSchedule.every := 3; IntervalSchedule.period := MINUTES |} ];
     periodic_tasks :=
       [ {| PeriodicTask.task := "safe_transaction_service.history.tasks.check_reorgs_task";
            PeriodicTask.name := "Check Reorganisations";
            PeriodicTask.interval := 0;
            PeriodicTask.enabled := false |};
         {| PeriodicTask.task := "celery.backend_cleanup";
            PeriodicTask.name := "Backend cleanup";
            PeriodicTask.interval := 0;
            PeriodicTask.enabled := true |} ];
     safe_master_copies := ∅; proxy_factories := ∅; stdout := [] |}.

(** Two declarations for [stale_task_world]: one whose name is the key of the
    record beside the namespace, one whose name is in the namespace. *)
Definition collision_tasks : list CeleryTaskConfiguration.t :=
  [ mk_task "celery.backend_cleanup" "Clean up the result backend" 3 MINUTES false;
    mk_task "safe_transaction_service.history.tasks.check_reorgs_task"
      "Check Reorgs" 3 MINUTES true ].

(** ** Further properties: definitions *)

(** The command [c] deletes and changes no schedule, whether it returns or
    raises: the schedule table it leaves starts with the one it found, and
    the rows it has added are among [D]. *)
Definition appends_schedules {A} (D : list IntervalSchedule.t) (c : Cmd A) : Prop :=
  forall w,
    interval_schedules w `prefix_of` interval_schedules (c w).1 /\
    (forall r, r ∈ interval_schedules (c w).1 -> r ∈ interval_schedules w \/ r ∈ D).

Global Instance lookups_unique_dec tasks w : Decision (lookups_unique tasks w).
Proof. unfold lookups_unique, loop_lookups_unique. apply _. Defined.

(** A store in which the schedule of every thirteen seconds is stored twice,
    with the record of the last declared task of [TASKS]. *)
Definition duplicate_schedule_world : World :=
  {| interval_schedules :=
       [ {| IntervalSchedule.every := 13; IntervalSchedule.period := SECONDS |};
         {| IntervalSchedule.every := 13; IntervalSchedule.period := SECONDS |} ];
     periodic_tasks :=
       [ {| PeriodicTask.task := "safe_transaction_service.tokens.tasks.fix_pool_tokens_task";
            PeriodicTask.name := "Fix Pool Token Names";
            PeriodicTask.interval := 0;
            PeriodicTask.enabled := true |} ];
     safe_master_copies := ∅; proxy_factories := ∅; stdout := [] |}.

(** Declarations that name one task twice. *)
Definition repeated_tasks : list CeleryTaskConfiguration.t :=
  [ mk_task "safe_transaction_service.history.tasks.check_reorgs_task"
      "Check Reorgs" 3 MINUTES true;
    mk_task "safe_transaction_service.history.tasks.check_reorgs_task"
      "Check Reorgs every hour" 1 HOURS false ].

(** The table [T] holds exactly one record of the key [key], and the flag
    [enabled] of that record is [flag]. *)
Definition only_record_enabled (key : string) (flag : bool) (T : list PeriodicTask.t)
  : Prop :=
  key_count key T = 1%nat /\
  (exists pk r, T !! pk = Some r /\
     PeriodicTask.task r = key /\ PeriodicTask.enabled r = flag) /\
  (forall r, r ∈ T -> PeriodicTask.task r = key -> PeriodicTask.enabled r = flag).

(** * Proofs *)

(** ** Commands *)

Lemma set_safe_master_copies_id w : set_safe_master_copies (safe_master_copies w) w = w.
Proof. by destruct w. Qed.

Lemma set_proxy_factories_id w : set_proxy_factories (proxy_factories w) w = w.
Proof. by destruct w. Qed.

Lemma bind_returned {A B} (c : Cmd A) (k : A -> Cmd B) w w' a :
  c w = (w', Returned a) -> bind c k w = k a w'.
Proof. unfold bind. by intros ->. Qed.

(** A loop whose body is a total update of the world is the fold of that
    update. *)
Lemma for_each_fold {A} (step : A -> World -> World) (body : A -> Cmd unit) l :
  (forall x w, body x w = (step x w, Returned tt)) ->
  forall w, for_each l body w = (foldl (fun w x => step x w) w l, Returned tt).
Proof.
  intros Hbody. induction l as [|x l IH]; intros w; [done|].
  cbn [for_each foldl]. erewrite bind_returned by apply Hbody. apply IH.
Qed.

(** ** The master-copy registry *)

Lemma with_version_same r : with_version (SafeMasterCopyRow.version r) r = r.
Proof. by destruct r. Qed.

Lemma setup_safe_master_copy_run address initial_block_number version w :
  setup_safe_master_copy (address, initial_block_number, version) w =
  (set_safe_master_copies
     (<[address := master_copy_entry initial_block_number version
                     (safe_master_copies w !! address)]> (safe_master_copies w)) w,
   Returned tt).
Proof.
  unfold setup_safe_master_copy, bind, SafeMasterCopy_get_or_create.
  destruct (safe_master_copies w !! address) as [r|] eqn:Hr; cbn.
  - destruct (negb (SafeMasterCopyRow.version r =? version)%string
              || negb (SafeMasterCopyRow.initial_block_number r =? initial_block_number)%Z)
      eqn:Hdrift.
    + unfold SafeMasterCopy_save; cbn. do 2 f_equal.
      apply map_eq; intros a. rewrite lookup_alter, lookup_insert.
      destruct (decide (address = a)) as [<-|]; [|done]. by rewrite Hr.
    + unfold ret. f_equal.
      apply orb_false_elim in Hdrift as [Hv _].
      apply negb_false_iff, String.eqb_eq in Hv. subst version.
      rewrite with_version_same, insert_id by done.
      symmetry. apply set_safe_master_copies_id.
  - rewrite String.eqb_refl, Z.eqb_refl. cbn. unfold ret. by destruct w.
Qed.

Lemma foldl_set_safe_master_copies {A} (f : A -> gmap string SafeMasterCopyRow.t ->
    gmap string SafeMasterCopyRow.t) l w :
  foldl (fun w x => set_safe_master_copies (f x (safe_master_copies w)) w) w l =
  set_safe_master_copies (foldl (fun m x => f x m) (safe_master_copies w) l) w.
Proof.
  revert w. induction l as [|x l IH]; intros w; cbn [foldl].
  - symmetry. apply set_safe_master_copies_id.
  - rewrite IH. by destruct w.
Qed.

Lemma _setup_safe_master_copies_run decls w :
  _setup_safe_master_copies decls w =
  (set_safe_master_copies
     (foldl (fun m d => master_copy_step d m) (safe_master_copies w) decls) w,
   Returned tt).
Proof.
  unfold _setup_safe_master_copies.
  rewrite (for_each_fold
    (fun d w => set_safe_master_copies (master_copy_step d (safe_master_copies w)) w)).
  - by rewrite foldl_set_safe_master_copies.
  - intros [[a b] v] w0. apply setup_safe_master_copy_run.
Qed.

Lemma master_copy_entries_cons a a' b v decls o :
  master_copy_entries a ((a', b, v) :: decls) o =
  master_copy_entries a decls
    (if decide (a' = a) then Some (master_copy_entry b v o) else o).
Proof. done. Qed.

Lemma master_copy_step_lookup decl m a :
  master_copy_step decl m !! a =
  master_copy_entries a [decl] (m !! a).
Proof.
  destruct decl as [[address b] v]. cbn.
  rewrite lookup_insert. destruct (decide (address = a)) as [->|]; done.
Qed.

Lemma master_copies_lookup decls m a :
  foldl (fun m d => master_copy_step d m) m decls !! a =
  master_copy_entries a decls (m !! a).
Proof.
  revert m. induction decls as [|d decls IH]; intros m; [done|].
  cbn [foldl]. rewrite IH, master_copy_step_lookup. done.
Qed.

Lemma master_copy_entries_app a l1 l2 o :
  master_copy_entries a (l1 ++ l2) o =
  master_copy_entries a l2 (master_copy_entries a l1 o).
Proof. apply foldl_app. Qed.

Lemma master_copy_entries_other a decls o :
  a ∉ map (fun d : string * Z * string => d.1.1) decls ->
  master_copy_entries a decls o = o.
Proof.
  revert o. induction decls as [|[[a' b] v] decls IH]; intros o Ha; [done|].
  cbn in Ha. apply not_elem_of_cons in Ha as [Hne Ha].
  rewrite master_copy_entries_cons.
  destruct (decide (a' = a)); [congruence|]. by apply IH.
Qed.

(** An entry that exists keeps its initial block, its synchronisation block
    and its L2 flag through any declarations. *)
Lemma master_copy_entries_some a decls r :
  exists r', master_copy_entries a decls (Some r) = Some r' /\
    SafeMasterCopyRow.initial_block_number r' = SafeMasterCopyRow.initial_block_number r /\
    SafeMasterCopyRow.tx_block_number r' = SafeMasterCopyRow.tx_block_number r /\
    SafeMasterCopyRow.l2 r' = SafeMasterCopyRow.l2 r.
Proof.
  revert r. induction decls as [|[[a' b] v] decls IH]; intros r; [by exists r|].
  rewrite master_copy_entries_cons. destruct (decide (a' = a)).
  - cbn [master_copy_entry].
    destruct (IH (with_version v r)) as (r' & -> & ? & ? & ?). by exists r'.
  - apply IH.
Qed.

(** ** The proxy-factory registry *)

Lemma setup_safe_proxy_factory_run decl w :
  setup_safe_proxy_factory decl w =
  (set_proxy_factories (proxy_factory_step decl (proxy_factories w)) w, Returned tt).
Proof.
  destruct decl as [a b].
  unfold setup_safe_proxy_factory, bind, ProxyFactory_get_or_create, proxy_factory_step.
  destruct (proxy_factories w !! a); cbn; unfold ret; [|done].
  by rewrite set_proxy_factories_id.
Qed.

Lemma foldl_set_proxy_factories {A} (f : A -> gmap string ProxyFactory.t ->
    gmap string ProxyFactory.t) l w :
  foldl (fun w x => set_proxy_factories (f x (proxy_factories w)) w) w l =
  set_proxy_factories (foldl (fun m x => f x m) (proxy_factories w) l) w.
Proof.
  revert w. induction l as [|x l IH]; intros w; cbn [foldl].
  - symmetry. apply set_proxy_factories_id.
  - rewrite IH. by destruct w.
Qed.

Lemma _setup_safe_proxy_factories_run decls w :
  _setup_safe_proxy_factories decls w =
  (set_proxy_factories
     (foldl (fun m d => proxy_factory_step d m) (proxy_factories w) decls) w,
   Returned tt).
Proof.
  unfold _setup_safe_proxy_factories.
  rewrite (for_each_fold
    (fun d w => set_proxy_factories (proxy_factory_step d (proxy_factories w)) w)).
  - by rewrite foldl_set_proxy_factories.
  - intros d w0. apply setup_safe_proxy_factory_run.
Qed.

Lemma proxy_factory_step_some decl m a r :
  m !! a = Some r -> proxy_factory_step decl m !! a = Some r.
Proof.
  destruct decl as [a' b]. unfold proxy_factory_step. intros Hr.
  destruct (m !! a') eqn:Ha'; [done|].
  rewrite lookup_insert_ne; [done|]. intros ->. congruence.
Qed.

Lemma proxy_factories_some decls m a r :
  m !! a = Some r ->
  foldl (fun m d => proxy_factory_step d m) m decls !! a = Some r.
Proof.
  revert m. induction decls as [|d decls IH]; intros m Hr; [done|].
  cbn [foldl]. by apply IH, proxy_factory_step_some.
Qed.

(** ** Lookups in a table *)

Lemma rows_where_snd {A} (P : A -> bool) i tbl :
  map snd (rows_where P i tbl) = List.filter P tbl.
Proof.
  revert i. induction tbl as [|r tbl IH]; intros i; [done|].
  cbn. destruct (P r); cbn; by rewrite IH.
Qed.

Lemma rows_where_elem {A} (P : A -> bool) i tbl j r :
  (j, r) ∈ rows_where P i tbl ->
  (i <= j)%nat /\ tbl !! (j - i)%nat = Some r /\ P r = true.
Proof.
  revert i. induction tbl as [|r0 tbl IH]; intros i; cbn.
  - by intros ?%elem_of_nil.
  - destruct (P r0) eqn:HP.
    + intros [Heq|Hin]%elem_of_cons.
      * injection Heq as -> ->. by rewrite Nat.sub_diag.
      * apply IH in Hin as (Hle & Hl & Hr). repeat split; [lia| |done].
        by replace (j - i)%nat with (S (j - S i)) by lia.
    + intros Hin. apply IH in Hin as (Hle & Hl & Hr). repeat split; [lia| |done].
      by replace (j - i)%nat with (S (j - S i)) by lia.
Qed.

Lemma objects_get_does_not_exist {A} (P : A -> bool) tbl :
  objects_get P tbl = DoesNotExist <-> List.filter P tbl = [].
Proof.
  unfold objects_get. rewrite <- (rows_where_snd P 0%nat).
  destruct (rows_where P 0 tbl) as [|[i r] [|]]; cbn; split; congruence.
Qed.

Lemma objects_get_found {A} (P : A -> bool) tbl i r :
  objects_get P tbl = Found i r ->
  tbl !! i = Some r /\ P r = true /\ List.filter P tbl = [r].
Proof.
  unfold objects_get. rewrite <- (rows_where_snd P 0%nat).
  destruct (rows_where P 0 tbl) as [|[i' r'] [|]] eqn:Hrows; try discriminate.
  intros [= -> ->].
  destruct (rows_where_elem P 0 tbl i r) as (_ & Hl & HP).
  { rewrite Hrows. apply list_elem_of_singleton. done. }
  rewrite Nat.sub_0_r in Hl. done.
Qed.

Lemma objects_get_multiple {A} (P : A -> bool) tbl :
  objects_get P tbl = MultipleFound -> (2 <= length (List.filter P tbl))%nat.
Proof.
  unfold objects_get. rewrite <- (rows_where_snd P 0%nat).
  destruct (rows_where P 0 tbl) as [|[i' r'] [|]]; try discriminate.
  cbn. lia.
Qed.

Lemma objects_get_unique {A} (P : A -> bool) tbl :
  objects_get P tbl <> MultipleFound <-> (length (List.filter P tbl) <= 1)%nat.
Proof.
  split.
  - intros Hne. destruct (objects_get P tbl) as [|i r|] eqn:Hget; [| |done].
    + apply objects_get_does_not_exist in Hget. rewrite Hget. cbn. lia.
    + apply objects_get_found in Hget as (_ & _ & ->). cbn. lia.
  - intros Hle Hm%objects_get_multiple. lia.
Qed.

(** ** The schedule table *)

Lemma schedule_matches_eq r r' : schedule_matches r r' = true <-> r' = r.
Proof.
  unfold schedule_matches, interval_matches. rewrite bool_decide_eq_true.
  destruct r, r'; cbn. split; [intros [-> ->]|intros [= -> ->]]; done.
Qed.

Lemma filter_schedule_absent r S :
  r ∉ S -> List.filter (schedule_matches r) S = [].
Proof.
  induction S as [|r' S IH]; [done|].
  intros [Hne Hnin]%not_elem_of_cons. cbn.
  destruct (schedule_matches r r') eqn:Hm.
  - apply schedule_matches_eq in Hm. congruence.
  - by apply IH.
Qed.

Lemma filter_schedule_NoDup r S :
  NoDup S -> (length (List.filter (schedule_matches r) S) <= 1)%nat.
Proof.
  induction 1 as [|r' S Hnin Hnd IH]; cbn; [lia|].
  destruct (schedule_matches r r') eqn:Hm; [|done].
  apply schedule_matches_eq in Hm. subst r'.
  rewrite filter_schedule_absent by done. cbn. lia.
Qed.

Lemma filter_schedule_empty r S :
  List.filter (schedule_matches r) S = [] -> r ∉ S.
Proof.
  induction S as [|r' S IH]; cbn; [intros _; apply not_elem_of_nil|].
  destruct (schedule_matches r r') eqn:Hm; [discriminate|].
  intros Hf. apply not_elem_of_cons. split; [|by apply IH].
  intros ->. assert (schedule_matches r' r' = true) by by apply schedule_matches_eq.
  congruence.
Qed.

Lemma with_schedule_lookup r S :
  objects_get (schedule_matches r) S <> MultipleFound ->
  with_schedule r S !! schedule_position r S = Some r.
Proof.
  unfold with_schedule, schedule_position. intros Hne.
  destruct (objects_get (schedule_matches r) S) eqn:Hget; [| |done].
  - rewrite lookup_app_r by lia. by rewrite Nat.sub_diag.
  - apply objects_get_found in Hget as (Hl & ->%schedule_matches_eq & _). done.
Qed.

Lemma with_schedule_prefix r S : S `prefix_of` with_schedule r S.
Proof.
  unfold with_schedule.
  destruct (objects_get (schedule_matches r) S); try done.
  by apply prefix_app_r.
Qed.

Lemma with_schedule_present r S : r ∈ S -> with_schedule r S = S.
Proof.
  intros Hin. unfold with_schedule.
  destruct (objects_get (schedule_matches r) S) eqn:Hget; try done.
  apply objects_get_does_not_exist, filter_schedule_empty in Hget. done.
Qed.

Lemma with_schedule_elem r S x : x ∈ with_schedule r S <-> x ∈ S \/ x = r.
Proof.
  unfold with_schedule.
  destruct (objects_get (schedule_matches r) S) eqn:Hget.
  - rewrite elem_of_app, list_elem_of_singleton. done.
  - apply objects_get_found in Hget as (Hl & ->%schedule_matches_eq & _).
    apply list_elem_of_lookup_2 in Hl. split; [by left|]. by intros [?| ->].
  - apply objects_get_multiple in Hget.
    split; [by left|]. intros [?| ->]; [done|].
    destruct (decide (r ∈ S)) as [|Hnin]; [done|].
    rewrite filter_schedule_absent in Hget by done. cbn in Hget. lia.
Qed.

Lemma schedule_created_count r S :
  schedule_created r S = true <-> schedule_count r S = 0%nat.
Proof.
  unfold schedule_created, schedule_count.
  destruct (objects_get (schedule_matches r) S) eqn:Hget.
  - apply objects_get_does_not_exist in Hget. by rewrite Hget.
  - apply objects_get_found in Hget as (_ & _ & ->). done.
  - apply objects_get_multiple in Hget. split; [done|lia].
Qed.

Lemma schedules_with_schedule r S :
  with_schedule r S = (S ++ if schedule_created r S then [r] else [])%list.
Proof.
  unfold with_schedule, schedule_created.
  destruct (objects_get (schedule_matches r) S); by rewrite ?app_nil_r.
Qed.

Lemma schedule_count_with_schedule r r' S :
  schedule_count r (with_schedule r' S) =
  (schedule_count r S +
   if schedule_created r' S && schedule_matches r r' then 1 else 0)%nat.
Proof.
  rewrite schedules_with_schedule. unfold schedule_count.
  rewrite List.filter_app, length_app.
  destruct (schedule_created r' S); cbn; [|done].
  by destruct (schedule_matches r r').
Qed.

Lemma schedule_count_with_schedule_le r r' S :
  (schedule_count r S <= 1)%nat -> (schedule_count r (with_schedule r' S) <= 1)%nat.
Proof.
  intros Hle. rewrite schedule_count_with_schedule.
  destruct (schedule_created r' S) eqn:Hc; cbn; [|lia].
  destruct (schedule_matches r r') eqn:Hm; [|lia].
  apply schedule_matches_eq in Hm. subst r'.
  apply schedule_created_count in Hc. lia.
Qed.

Lemma schedule_count_with_schedule_mono r r' S :
  (schedule_count r S <= schedule_count r (with_schedule r' S))%nat.
Proof. rewrite schedule_count_with_schedule. lia. Qed.

Lemma schedule_count_elem r S : r ∈ S -> (1 <= schedule_count r S)%nat.
Proof.
  intros Hin. unfold schedule_count.
  destruct (List.filter (schedule_matches r) S) eqn:Hf; [|cbn; lia].
  by apply filter_schedule_empty in Hf.
Qed.

(** A schedule that is stored once is stored at one position. *)
Lemma schedule_count_lookup r S i j :
  (schedule_count r S <= 1)%nat -> S !! i = Some r -> S !! j = Some r -> i = j.
Proof.
  revert i j. induction S as [|x S IH]; intros i j Hle Hi Hj; [done|].
  unfold schedule_count in Hle. cbn [List.filter] in Hle.
  destruct i as [|i], j as [|j]; cbn in Hi, Hj; [done| | |].
  - injection Hi as ->.
    assert (schedule_matches r r = true) as Hm by by apply schedule_matches_eq.
    rewrite Hm in Hle. cbn in Hle.
    apply list_elem_of_lookup_2, schedule_count_elem in Hj.
    unfold schedule_count in Hj. lia.
  - injection Hj as ->.
    assert (schedule_matches r r = true) as Hm by by apply schedule_matches_eq.
    rewrite Hm in Hle. cbn in Hle.
    apply list_elem_of_lookup_2, schedule_count_elem in Hi.
    unfold schedule_count in Hi. lia.
  - f_equal. apply IH; [|done|done]. unfold schedule_count.
    destruct (schedule_matches r x); cbn in Hle; lia.
Qed.

Lemma schedule_count_NoDup r S : NoDup S -> (schedule_count r S <= 1)%nat.
Proof. apply filter_schedule_NoDup. Qed.

(** ** The task table *)

Lemma task_matches_eq key r : task_matches key r = true <-> PeriodicTask.task r = key.
Proof. apply String.eqb_eq. Qed.

(** [create_task] when no lookup finds several rows. *)
Lemma create_task_run d w :
  objects_get (schedule_matches (declared_schedule d)) (interval_schedules w)
    <> MultipleFound ->
  objects_get (task_matches (CeleryTaskConfiguration.name d)) (periodic_tasks w)
    <> MultipleFound ->
  let s := schedule_position (declared_schedule d) (interval_schedules w) in
  create_task d w =
  ({| interval_schedules := with_schedule (declared_schedule d) (interval_schedules w);
      periodic_tasks := with_task (declared_row d s) (periodic_tasks w);
      safe_master_copies := safe_master_copies w;
      proxy_factories := proxy_factories w;
      stdout := stdout w |},
   Returned (task_position (CeleryTaskConfiguration.name d) (periodic_tasks w),
             declared_row d s,
             task_created (CeleryTaskConfiguration.name d) (periodic_tasks w))).
Proof.
  intros HS HT s. subst s.
  unfold create_task, bind, IntervalSchedule_get_or_create, PeriodicTask_get_or_create,
    with_schedule, schedule_position, with_task, task_position, task_created.
  change (interval_matches (CeleryTaskConfiguration.interval d)
            (CeleryTaskConfiguration.period d))
    with (schedule_matches (declared_schedule d)) in *.
  cbn [declared_row PeriodicTask.task].
  destruct (objects_get (schedule_matches (declared_schedule d)) (interval_schedules w))
    as [|s r|] eqn:HgetS; [| |done]; cbn;
  destruct (objects_get (task_matches (CeleryTaskConfiguration.name d)) (periodic_tasks w))
    as [|i r0|] eqn:HgetT; try done; cbn; unfold ret, PeriodicTask_save; cbn.
  - apply objects_get_found in HgetT as (_ & Hk%task_matches_eq & _).
    rewrite Hk. reflexivity.
  - apply objects_get_found in HgetT as (_ & Hk%task_matches_eq & _).
    rewrite Hk. reflexivity.
Qed.

Lemma handle_task_run d w :
  objects_get (schedule_matches (declared_schedule d)) (interval_schedules w)
    <> MultipleFound ->
  objects_get (task_matches (CeleryTaskConfiguration.name d)) (periodic_tasks w)
    <> MultipleFound ->
  handle_task d w = (task_step d w, Returned tt).
Proof.
  intros HS HT. unfold handle_task.
  erewrite bind_returned by by apply create_task_run.
  unfold task_step, task_message, stdout_write.
  by destruct (task_created _ _).
Qed.

(** A lookup that finds several rows makes [handle_task] raise. *)
Lemma handle_task_outcome d w :
  (handle_task d w).2 =
  if decide ((schedule_count (declared_schedule d) (interval_schedules w) <= 1)%nat /\
             (key_count (CeleryTaskConfiguration.name d) (periodic_tasks w) <= 1)%nat)
  then Returned tt
  else Raised MultipleObjectsReturned.
Proof.
  destruct (decide _) as [[HS HT]|Hnot].
  - rewrite handle_task_run; [done|by apply objects_get_unique..].
  - unfold handle_task, create_task, bind,
      IntervalSchedule_get_or_create, PeriodicTask_get_or_create.
    change (interval_matches (CeleryTaskConfiguration.interval d)
              (CeleryTaskConfiguration.period d))
      with (schedule_matches (declared_schedule d)).
    destruct (objects_get (schedule_matches (declared_schedule d)) (interval_schedules w))
      as [|s r|] eqn:HgetS; [| |done]; cbn;
    (destruct (objects_get (task_matches (CeleryTaskConfiguration.name d)) (periodic_tasks w))
      as [|i r0|] eqn:HgetT; [| |done]);
    destruct Hnot; (split; [unfold schedule_count|unfold key_count]);
      apply objects_get_unique; congruence.
Qed.

Lemma key_count_keys key T :
  key_count key T =
  length (List.filter (fun k => String.eqb k key) (map PeriodicTask.task T)).
Proof.
  unfold key_count. induction T as [|r T IH]; [done|].
  cbn. unfold task_matches at 1. destruct (String.eqb _ _); cbn; by rewrite IH.
Qed.

Lemma key_count_app key T1 T2 :
  key_count key (T1 ++ T2) = (key_count key T1 + key_count key T2)%nat.
Proof. unfold key_count. by rewrite List.filter_app, length_app. Qed.

Lemma key_count_singleton key row :
  key_count key [row] = if String.eqb (PeriodicTask.task row) key then 1%nat else 0%nat.
Proof. unfold key_count, task_matches. cbn. by destruct (String.eqb _ _). Qed.

Lemma task_created_key_count key T :
  task_created key T = true <-> key_count key T = 0%nat.
Proof.
  unfold task_created, key_count.
  destruct (objects_get (task_matches key) T) eqn:Hget.
  - apply objects_get_does_not_exist in Hget. by rewrite Hget.
  - apply objects_get_found in Hget as (_ & _ & ->). done.
  - apply objects_get_multiple in Hget. split; [done|lia].
Qed.

Lemma objects_get_task_unique key T :
  (key_count key T <= 1)%nat -> objects_get (task_matches key) T <> MultipleFound.
Proof. intros Hle Hm%objects_get_multiple. unfold key_count in Hle. lia. Qed.

Lemma keys_with_task row T :
  map PeriodicTask.task (with_task row T) =
  (map PeriodicTask.task T ++
   if task_created (PeriodicTask.task row) T then [PeriodicTask.task row] else [])%list.
Proof.
  unfold with_task, task_created.
  destruct (objects_get (task_matches (PeriodicTask.task row)) T) as [|i r0|] eqn:Hget.
  - by rewrite map_app.
  - apply objects_get_found in Hget as (Hi & Hk%task_matches_eq & _).
    rewrite app_nil_r.
    change (map PeriodicTask.task (<[i:=row]> T)) with (PeriodicTask.task <$> <[i:=row]> T).
    rewrite list_fmap_insert, <- Hk. apply list_insert_id.
    by rewrite list_lookup_fmap, Hi.
  - by rewrite app_nil_r.
Qed.

Lemma key_count_with_task key row T :
  key_count key (with_task row T) =
  (key_count key T +
   if task_created (PeriodicTask.task row) T && String.eqb (PeriodicTask.task row) key
   then 1 else 0)%nat.
Proof.
  rewrite !key_count_keys, keys_with_task, List.filter_app, length_app.
  destruct (task_created _ _); cbn; [|done].
  by destruct (String.eqb _ _).
Qed.

Lemma key_count_with_task_le key row T :
  (key_count key T <= 1)%nat -> (key_count key (with_task row T) <= 1)%nat.
Proof.
  intros Hle. rewrite key_count_with_task.
  destruct (task_created _ _) eqn:Hc; cbn; [|lia].
  destruct (String.eqb _ _) eqn:Hk; [|lia].
  apply String.eqb_eq in Hk. subst key.
  apply task_created_key_count in Hc. lia.
Qed.

Lemma with_task_lookup row T :
  objects_get (task_matches (PeriodicTask.task row)) T <> MultipleFound ->
  with_task row T !! task_position (PeriodicTask.task row) T = Some row.
Proof.
  unfold with_task, task_position. intros Hne.
  destruct (objects_get (task_matches (PeriodicTask.task row)) T) as [|i r0|] eqn:Hget;
    [| |done].
  - rewrite lookup_app_r by lia. by rewrite Nat.sub_diag.
  - apply objects_get_found in Hget as (Hi & _ & _).
    apply list_lookup_insert_eq. by eapply lookup_lt_Some.
Qed.

(** A stored record stays where it is and keeps its key; it keeps its other
    fields too unless its key is the one written. *)
Lemma with_task_kept row T i r :
  T !! i = Some r ->
  exists r', with_task row T !! i = Some r' /\
    PeriodicTask.task r' = PeriodicTask.task r /\
    (PeriodicTask.task r <> PeriodicTask.task row -> r' = r).
Proof.
  intros Hi. unfold with_task.
  destruct (objects_get (task_matches (PeriodicTask.task row)) T) as [|j r0|] eqn:Hget.
  - exists r. by rewrite lookup_app_l by by eapply lookup_lt_Some.
  - apply objects_get_found in Hget as (Hj & Hk%task_matches_eq & _).
    destruct (decide (i = j)) as [->|Hne].
    + exists row. rewrite list_lookup_insert_eq by by eapply lookup_lt_Some.
      assert (r0 = r) as -> by congruence. repeat split; [done|]. congruence.
    + exists r. by rewrite list_lookup_insert_ne.
  - by exists r.
Qed.

(** ** The loop over the tasks *)

Lemma task_step_schedules d w :
  interval_schedules (task_step d w) =
  with_schedule (declared_schedule d) (interval_schedules w).
Proof. done. Qed.

Lemma task_step_tasks d w :
  periodic_tasks (task_step d w) =
  with_task
    (declared_row d (schedule_position (declared_schedule d) (interval_schedules w)))
    (periodic_tasks w).
Proof. done. Qed.

Lemma tasks_loop_cons d ds w :
  foldl (fun w d => task_step d w) w (d :: ds) =
  foldl (fun w d => task_step d w) (task_step d w) ds.
Proof. done. Qed.

Lemma key_count_with_task_mono key row T :
  (key_count key T <= key_count key (with_task row T))%nat.
Proof. rewrite key_count_with_task. lia. Qed.

Lemma task_step_lookups_unique d ds w :
  loop_lookups_unique ds w -> loop_lookups_unique ds (task_step d w).
Proof.
  unfold loop_lookups_unique. intros H. eapply Forall_impl; [exact H|].
  intros d' [HS HT]. rewrite task_step_schedules, task_step_tasks. split.
  - by apply schedule_count_with_schedule_le.
  - by apply key_count_with_task_le.
Qed.

Lemma tasks_loop_run ds w :
  loop_lookups_unique ds w ->
  for_each ds handle_task w = (foldl (fun w d => task_step d w) w ds, Returned tt).
Proof.
  revert w. induction ds as [|d ds IH]; intros w Hu; [done|].
  apply Forall_cons in Hu as [[HS HT] Hu].
  cbn [for_each]. erewrite bind_returned; cycle 1.
  { apply handle_task_run; by apply objects_get_unique. }
  rewrite tasks_loop_cons. by apply IH, task_step_lookups_unique.
Qed.

(** The loop returns exactly when no lookup can find several rows; it raises
    [MultipleObjectsReturned] otherwise. *)
Lemma tasks_loop_outcome ds w :
  (loop_lookups_unique ds w /\ (for_each ds handle_task w).2 = Returned tt) \/
  (~ loop_lookups_unique ds w /\
   (for_each ds handle_task w).2 = Raised MultipleObjectsReturned).
Proof.
  revert w. induction ds as [|d ds IH]; intros w.
  - left. split; [constructor|done].
  - cbn [for_each]. unfold bind. pose proof (handle_task_outcome d w) as Hd.
    destruct (decide _) as [[HS HT]|Hnot].
    + rewrite handle_task_run in Hd |- * by by apply objects_get_unique.
      destruct (IH (task_step d w)) as [[Hu Hr]|[Hu Hr]].
      * left. split; [|done]. apply Forall_cons. split; [done|].
        eapply Forall_impl; [exact Hu|]. intros d' [HS' HT'].
        rewrite task_step_schedules in HS'. rewrite task_step_tasks in HT'.
        pose proof (schedule_count_with_schedule_mono (declared_schedule d')
                      (declared_schedule d) (interval_schedules w)).
        pose proof (key_count_with_task_mono (CeleryTaskConfiguration.name d')
                      (declared_row d (schedule_position (declared_schedule d)
                                         (interval_schedules w)))
                      (periodic_tasks w)).
        split; lia.
      * right. split; [|done]. intros [_ Hrest]%Forall_cons.
        by apply Hu, task_step_lookups_unique.
    + right. destruct (handle_task d w) as [w1 [[]|e]]; cbn in Hd; [done|].
      injection Hd as ->. split; [|done]. by intros [? _]%Forall_cons.
Qed.

Lemma tasks_loop_returns ds w :
  (for_each ds handle_task w).2 = Returned tt <-> loop_lookups_unique ds w.
Proof.
  destruct (tasks_loop_outcome ds w) as [[Hu Hr]|[Hu Hr]]; split; try done.
  rewrite Hr. discriminate.
Qed.

Lemma tasks_loop_registries ds w :
  safe_master_copies (foldl (fun w d => task_step d w) w ds) = safe_master_copies w /\
  proxy_factories (foldl (fun w d => task_step d w) w ds) = proxy_factories w.
Proof.
  revert w. induction ds as [|d ds IH]; intros w; [done|].
  rewrite tasks_loop_cons. destruct (IH (task_step d w)) as [-> ->]. done.
Qed.

Lemma tasks_loop_schedule_count_le ds w r :
  (schedule_count r (interval_schedules w) <= 1)%nat ->
  (schedule_count r (interval_schedules (foldl (fun w d => task_step d w) w ds)) <= 1)%nat.
Proof.
  revert w. induction ds as [|d ds IH]; intros w HS; [done|].
  rewrite tasks_loop_cons. apply IH. rewrite task_step_schedules.
  by apply schedule_count_with_schedule_le.
Qed.

Lemma tasks_loop_prefix ds w :
  interval_schedules w `prefix_of`
  interval_schedules (foldl (fun w d => task_step d w) w ds).
Proof.
  revert w. induction ds as [|d ds IH]; intros w; [done|].
  rewrite tasks_loop_cons. etrans; [|apply IH].
  rewrite task_step_schedules. apply with_schedule_prefix.
Qed.

Lemma tasks_loop_schedule_declared ds w d :
  d ∈ ds ->
  declared_schedule d ∈ interval_schedules (foldl (fun w d => task_step d w) w ds).
Proof.
  revert w. induction ds as [|d0 ds IH]; intros w; [by intros ?%elem_of_nil|].
  rewrite tasks_loop_cons. intros [->|Hin]%elem_of_cons; [|by apply IH].
  eapply elem_of_prefix; [|apply tasks_loop_prefix].
  rewrite task_step_schedules. apply with_schedule_elem. by right.
Qed.

Lemma tasks_loop_schedules_present ds w :
  Forall (fun d => declared_schedule d ∈ interval_schedules w) ds ->
  interval_schedules (foldl (fun w d => task_step d w) w ds) = interval_schedules w.
Proof.
  revert w. induction ds as [|d ds IH]; intros w Hall; [done|].
  apply Forall_cons in Hall as [Hd Hall].
  rewrite tasks_loop_cons, IH; rewrite task_step_schedules, with_schedule_present by done;
    done.
Qed.

Lemma tasks_loop_key_count ds w key :
  key_count key (periodic_tasks (foldl (fun w d => task_step d w) w ds)) =
  if decide (key ∈ map CeleryTaskConfiguration.name ds)
  then Nat.max 1 (key_count key (periodic_tasks w))
  else key_count key (periodic_tasks w).
Proof.
  revert w. induction ds as [|d ds IH]; intros w.
  - cbn. destruct (decide _) as [Hin|]; [|done]. by apply elem_of_nil in Hin.
  - rewrite tasks_loop_cons, IH, task_step_tasks, key_count_with_task.
    cbn [declared_row PeriodicTask.task map].
    destruct (task_created _ _) eqn:Hc; cbn [andb].
    + apply task_created_key_count in Hc.
      destruct (String.eqb_spec (CeleryTaskConfiguration.name d) key) as [Heq|Hne].
      * rewrite Heq in *. rewrite Hc. rewrite (decide_True (P := (key ∈ key :: _))) by apply list_elem_of_here.
        destruct (decide _); cbn; lia.
      * rewrite Nat.add_0_r.
        destruct (decide (key ∈ map CeleryTaskConfiguration.name ds)) as [Hin|Hnin].
        -- by rewrite decide_True by by apply list_elem_of_further.
        -- rewrite decide_False; [done|].
           intros [?|?]%elem_of_cons; congruence.
    + rewrite Nat.add_0_r.
      destruct (decide (key ∈ map CeleryTaskConfiguration.name ds)) as [Hin|Hnin].
      * by rewrite decide_True by by apply list_elem_of_further.
      * destruct (decide (key ∈ _ :: _)) as [[->|?]%elem_of_cons|]; [|done|done].
        assert (key_count (CeleryTaskConfiguration.name d) (periodic_tasks w) <> 0%nat).
        { intros H0%task_created_key_count. congruence. }
        lia.
Qed.

Lemma tasks_loop_kept ds w i r :
  periodic_tasks w !! i = Some r ->
  exists r', periodic_tasks (foldl (fun w d => task_step d w) w ds) !! i = Some r' /\
    PeriodicTask.task r' = PeriodicTask.task r /\
    (PeriodicTask.task r ∉ map CeleryTaskConfiguration.name ds -> r' = r).
Proof.
  revert w r. induction ds as [|d ds IH]; intros w r Hi; [by exists r|].
  rewrite tasks_loop_cons.
  destruct (with_task_kept
    (declared_row d (schedule_position (declared_schedule d) (interval_schedules w)))
    (periodic_tasks w) i r Hi) as (r1 & Hi1 & Hk1 & Hsame1).
  destruct (IH (task_step d w) r1 Hi1) as (r' & Hi' & Hk' & Hsame').
  exists r'. repeat split; [done|congruence|].
  cbn [map]. intros [Hne Hnin]%not_elem_of_cons.
  rewrite Hsame' by by rewrite Hk1. apply Hsame1. done.
Qed.

(** ** The removal of the old tasks *)

Lemma key_count_wipe_namespace key T :
  startswith NAMESPACE key = true -> key_count key (wipe T) = 0%nat.
Proof.
  intros Hns. unfold key_count, wipe.
  induction T as [|r T IH]; [done|]. cbn.
  destruct (startswith NAMESPACE (PeriodicTask.task r)) eqn:Hr; cbn; [done|].
  unfold task_matches at 1.
  destruct (String.eqb_spec (PeriodicTask.task r) key) as [Heq|]; [|done].
  congruence.
Qed.

Lemma key_count_wipe_other key T :
  startswith NAMESPACE key = false -> key_count key (wipe T) = key_count key T.
Proof.
  intros Hns. unfold key_count, wipe.
  induction T as [|r T IH]; [done|]. cbn.
  destruct (startswith NAMESPACE (PeriodicTask.task r)) eqn:Hr; cbn.
  - unfold task_matches at 2.
    destruct (String.eqb_spec (PeriodicTask.task r) key) as [Heq|]; [congruence|done].
  - destruct (task_matches key r); cbn; by rewrite IH.
Qed.

Lemma wipe_app T1 T2 : wipe (T1 ++ T2) = (wipe T1 ++ wipe T2)%list.
Proof. apply List.filter_app. Qed.

Lemma wipe_wipe T : wipe (wipe T) = wipe T.
Proof.
  unfold wipe. induction T as [|r T IH]; [done|]. cbn.
  destruct (startswith NAMESPACE (PeriodicTask.task r)) eqn:Hr; cbn; [done|].
  by rewrite Hr, IH.
Qed.

Lemma wipe_declared_rows ds (s : CeleryTaskConfiguration.t -> nat) :
  namespaced ds -> wipe (map (fun d => declared_row d (s d)) ds) = [].
Proof.
  unfold wipe. induction 1 as [|d ds Hd Hds IH]; [done|].
  cbn [map List.filter declared_row PeriodicTask.task]. by rewrite Hd.
Qed.

(** For declarations in the namespace the task table is no condition. *)
Lemma namespaced_lookups_unique tasks w :
  namespaced tasks ->
  Forall (fun d => (schedule_count (declared_schedule d) (interval_schedules w) <= 1)%nat)
    tasks ->
  lookups_unique tasks w.
Proof.
  unfold namespaced, lookups_unique, loop_lookups_unique.
  rewrite !Forall_forall. intros Hns HS d Hd. split; [by apply HS|].
  cbn [after_wipe periodic_tasks].
  rewrite key_count_wipe_namespace by by apply Hns. lia.
Qed.

Lemma NoDup_lookups_unique tasks w :
  namespaced tasks -> NoDup (interval_schedules w) -> lookups_unique tasks w.
Proof.
  intros Hns HS. apply namespaced_lookups_unique; [done|].
  apply Forall_forall. intros d _. by apply schedule_count_NoDup.
Qed.

Lemma handle_tasks_unfold tasks w :
  handle_tasks tasks w = for_each tasks handle_task (after_wipe w).
Proof. done. Qed.

Lemma handle_tasks_run tasks w :
  lookups_unique tasks w ->
  handle_tasks tasks w =
  (foldl (fun w d => task_step d w) (after_wipe w) tasks, Returned tt).
Proof. intros Hu. rewrite handle_tasks_unfold. by apply tasks_loop_run. Qed.

Lemma handle_tasks_returns tasks w :
  (handle_tasks tasks w).2 = Returned tt <-> lookups_unique tasks w.
Proof. rewrite handle_tasks_unfold. apply tasks_loop_returns. Qed.

(** ** What the loop writes *)

Lemma tasks_loop_stdout ds w :
  exists cs, length cs = length ds /\
    stdout (foldl (fun w d => task_step d w) w ds) =
    (stdout w ++ zip_with task_message ds cs)%list.
Proof.
  revert w. induction ds as [|d ds IH]; intros w.
  - exists []. by rewrite app_nil_r.
  - rewrite tasks_loop_cons. destruct (IH (task_step d w)) as (cs & Hlen & ->).
    exists (task_created (CeleryTaskConfiguration.name d) (periodic_tasks w) :: cs).
    split; [cbn; by rewrite Hlen|]. cbn. by rewrite <- app_assoc.
Qed.

(** ** Declarations whose names are not in the table *)

Lemma schedule_position_stable r S1 S' s :
  (schedule_count r S' <= 1)%nat ->
  S1 `prefix_of` S' -> S1 !! s = Some r -> schedule_position r S' = s.
Proof.
  intros Hle Hpre Hs. unfold schedule_position.
  pose proof (prefix_lookup_Some _ _ _ _ Hs Hpre) as Hs'.
  destruct (objects_get (schedule_matches r) S') as [|i r'|] eqn:Hget.
  - apply objects_get_does_not_exist, filter_schedule_empty in Hget.
    destruct Hget. by eapply list_elem_of_lookup_2.
  - apply objects_get_found in Hget as (Hi & ->%schedule_matches_eq & _).
    by eapply schedule_count_lookup.
  - apply objects_get_multiple in Hget. unfold schedule_count in Hle. lia.
Qed.

Lemma tasks_loop_fresh ds w :
  Forall (fun d => (schedule_count (declared_schedule d) (interval_schedules w) <= 1)%nat)
    ds ->
  NoDup (map CeleryTaskConfiguration.name ds) ->
  Forall (fun d => key_count (CeleryTaskConfiguration.name d) (periodic_tasks w) = 0%nat)
    ds ->
  let w' := foldl (fun w d => task_step d w) w ds in
  periodic_tasks w' =
    (periodic_tasks w ++
     map (fun d => declared_row d
                     (schedule_position (declared_schedule d) (interval_schedules w')))
       ds)%list /\
  stdout w' = (stdout w ++ map (fun d => task_message d true) ds)%list.
Proof.
  revert w. induction ds as [|d ds IH]; intros w HS Hnames Hfresh.
  - cbn. by rewrite !app_nil_r.
  - cbn [map] in Hnames. apply NoDup_cons in Hnames as [Hd Hnames].
    apply Forall_cons in Hfresh as [Hfd Hfresh].
    apply Forall_cons in HS as [HSd HS].
    cbn zeta. rewrite tasks_loop_cons.
    assert (with_task
              (declared_row d (schedule_position (declared_schedule d) (interval_schedules w)))
              (periodic_tasks w) =
            (periodic_tasks w ++
             [declared_row d (schedule_position (declared_schedule d)
                                (interval_schedules w))])%list) as HT1.
    { unfold with_task. cbn [declared_row PeriodicTask.task].
      apply task_created_key_count in Hfd. unfold task_created in Hfd.
      by destruct (objects_get _ _). }
    destruct (IH (task_step d w)) as [HT Hout].
    + rewrite task_step_schedules. eapply Forall_impl; [exact HS|].
      intros d' Hd'. by apply schedule_count_with_schedule_le.
    + done.
    + rewrite task_step_tasks, HT1. apply Forall_forall. intros d' Hd'.
      rewrite key_count_app, key_count_singleton. cbn [declared_row PeriodicTask.task].
      rewrite Forall_forall in Hfresh. rewrite (Hfresh d' Hd').
      destruct (String.eqb_spec (CeleryTaskConfiguration.name d)
                  (CeleryTaskConfiguration.name d')) as [Heq|]; [|done].
      destruct Hd. rewrite Heq. by apply list_elem_of_fmap_2.
    + rewrite HT, Hout. rewrite task_step_tasks, HT1. cbn [map].
      rewrite <- !app_assoc. cbn [app]. split.
      * do 3 f_equal. symmetry.
        apply (schedule_position_stable _
                 (with_schedule (declared_schedule d) (interval_schedules w))).
        -- apply tasks_loop_schedule_count_le. rewrite task_step_schedules.
           by apply schedule_count_with_schedule_le.
        -- rewrite <- task_step_schedules. apply tasks_loop_prefix.
        -- apply with_schedule_lookup. by apply objects_get_unique.
      * apply task_created_key_count in Hfd.
        cbn [task_step stdout]. rewrite Hfd, <- app_assoc. done.
Qed.

(** ** The records of the declarations after the loop *)

Lemma tasks_loop_declared_rows ds w d :
  loop_lookups_unique ds w ->
  NoDup (map CeleryTaskConfiguration.name ds) ->
  d ∈ ds ->
  let w' := foldl (fun w d => task_step d w) w ds in
  let s := schedule_position (declared_schedule d) (interval_schedules w') in
  interval_schedules w' !! s = Some (declared_schedule d) /\
  exists pk, periodic_tasks w' !! pk = Some (declared_row d s).
Proof.
  revert w. induction ds as [|d0 ds IH]; intros w Hu Hnames;
    [by intros ?%elem_of_nil|].
  cbn [map] in Hnames. apply NoDup_cons in Hnames as [Hd0 Hnames].
  apply Forall_cons in Hu as [[HS0 HT0] Hu].
  intros [->|Hin]%elem_of_cons; cbn zeta; rewrite tasks_loop_cons.
  - set (s0 := schedule_position (declared_schedule d0) (interval_schedules w)).
    assert (interval_schedules (task_step d0 w) !! s0 = Some (declared_schedule d0)) as Hs0.
    { rewrite task_step_schedules. apply with_schedule_lookup.
      by apply objects_get_unique. }
    rewrite (schedule_position_stable _ (interval_schedules (task_step d0 w)) _ s0);
      [| |apply tasks_loop_prefix|done].
    2:{ apply tasks_loop_schedule_count_le. rewrite task_step_schedules.
        by apply schedule_count_with_schedule_le. }
    split.
    { eapply prefix_lookup_Some; [exact Hs0|apply tasks_loop_prefix]. }
    destruct (tasks_loop_kept ds (task_step d0 w)
                (task_position (CeleryTaskConfiguration.name d0) (periodic_tasks w))
                (declared_row d0 s0)) as (r' & Hr' & _ & Hsame).
    { rewrite task_step_tasks.
      apply (with_task_lookup (declared_row d0 s0)).
      by apply objects_get_unique. }
    eexists. rewrite Hr', Hsame; done.
  - apply IH; try done. by apply task_step_lookups_unique.
Qed.

(** ** Running the registries twice *)

Lemma master_copy_entry_version b v o :
  SafeMasterCopyRow.version (master_copy_entry b v o) = v.
Proof. by destruct o. Qed.

Lemma master_copy_entries_singleton a a' b v o :
  master_copy_entries a [(a', b, v)] o =
  if decide (a' = a) then Some (master_copy_entry b v o) else o.
Proof. done. Qed.

Lemma master_copy_entries_idem a decls o :
  master_copy_entries a decls (master_copy_entries a decls o) =
  master_copy_entries a decls o.
Proof.
  revert o. induction decls as [|[[a' b] v] decls IH] using rev_ind; intros o; [done|].
  rewrite !master_copy_entries_app, !master_copy_entries_singleton.
  destruct (decide (a' = a)) as [_|_]; [|apply IH].
  set (r := master_copy_entry b v (master_copy_entries a decls o)).
  destruct (master_copy_entries_some a decls r) as (r' & -> & Hi & Ht & Hl).
  f_equal. cbn [master_copy_entry].
  pose proof (master_copy_entry_version b v (master_copy_entries a decls o)) as Hv.
  fold r in Hv. destruct r, r'; cbn in *. by subst.
Qed.

Lemma master_copies_twice decls m :
  foldl (fun m d => master_copy_step d m)
    (foldl (fun m d => master_copy_step d m) m decls) decls =
  foldl (fun m d => master_copy_step d m) m decls.
Proof.
  apply map_eq. intros a. rewrite !master_copies_lookup. apply master_copy_entries_idem.
Qed.

Lemma proxy_factory_step_lookup decl m a :
  proxy_factory_step decl m !! a = proxy_factory_entries a [decl] (m !! a).
Proof.
  destruct decl as [a' b]. unfold proxy_factory_step. cbn.
  destruct (decide (a' = a)) as [->|Hne].
  - destruct (m !! a) eqn:Ha; [by rewrite Ha|]. by rewrite lookup_insert_eq.
  - destruct (m !! a'); [done|]. by rewrite lookup_insert_ne.
Qed.

Lemma proxy_factories_lookup decls m a :
  foldl (fun m d => proxy_factory_step d m) m decls !! a =
  proxy_factory_entries a decls (m !! a).
Proof.
  revert m. induction decls as [|d decls IH]; intros m; [done|].
  cbn [foldl]. rewrite IH, proxy_factory_step_lookup. done.
Qed.

Lemma proxy_factory_entries_some a decls r :
  proxy_factory_entries a decls (Some r) = Some r.
Proof.
  induction decls as [|[a' b] decls IH]; [done|].
  cbn. destruct (decide (a' = a)); apply IH.
Qed.

Lemma proxy_factory_entries_idem a decls o :
  proxy_factory_entries a decls (proxy_factory_entries a decls o) =
  proxy_factory_entries a decls o.
Proof.
  destruct (proxy_factory_entries a decls o) as [r|] eqn:Ho.
  - apply proxy_factory_entries_some.
  - destruct o as [r|]; [|done]. by rewrite proxy_factory_entries_some in Ho.
Qed.

Lemma proxy_factories_twice decls m :
  foldl (fun m d => proxy_factory_step d m)
    (foldl (fun m d => proxy_factory_step d m) m decls) decls =
  foldl (fun m d => proxy_factory_step d m) m decls.
Proof.
  apply map_eq. intros a. rewrite !proxy_factories_lookup.
  apply proxy_factory_entries_idem.
Qed.

(** ** The contract addresses *)

Lemma dict_contains_lookup {V} key (d : gmap string V) :
  dict_contains key d = match d !! key with Some _ => true | None => false end.
Proof.
  unfold dict_contains. destruct (d !! key) eqn:Hk.
  - by apply bool_decide_eq_true_2.
  - apply bool_decide_eq_false_2. by intros [? ?].
Qed.

Lemma handle_addresses_run master_copies proxy_factories_decl net_version w :
  handle_addresses master_copies proxy_factories_decl net_version w =
  addresses_result master_copies proxy_factories_decl net_version w.
Proof.
  unfold handle_addresses, addresses_result.
  unfold bind at 1 2. unfold stdout_write at 1.
  destruct net_version as [network_id|e]; [|done].
  unfold addresses_world, address_messages. rewrite !dict_contains_lookup.
  unfold dict_getitem, bind, stdout_write, ret.
  destruct (master_copies !! network_id) as [mcs|] eqn:Hmc;
    destruct (proxy_factories_decl !! network_id) as [pfs|] eqn:Hpf;
    cbn [negb andb default];
    rewrite ?_setup_safe_master_copies_run, ?_setup_safe_proxy_factories_run;
    cbn; rewrite <- ?app_assoc; reflexivity.
Qed.

Lemma handle_with_run tasks master_copies proxy_factories_decl net_version w :
  lookups_unique tasks w ->
  handle_with tasks master_copies proxy_factories_decl net_version w =
  addresses_result master_copies proxy_factories_decl net_version
    (foldl (fun w d => task_step d w) (after_wipe w) tasks).
Proof.
  intros Hu. unfold handle_with.
  erewrite bind_returned by by apply handle_tasks_run.
  apply handle_addresses_run.
Qed.

Lemma addresses_result_tables master_copies proxy_factories_decl net_version w :
  interval_schedules
    (addresses_result master_copies proxy_factories_decl net_version w).1 =
    interval_schedules w /\
  periodic_tasks
    (addresses_result master_copies proxy_factories_decl net_version w).1 =
    periodic_tasks w.
Proof. by destruct net_version. Qed.

(** ** The task phase and the registries *)

Lemma keeps_registries_bind {A B} (c : Cmd A) (k : A -> Cmd B) :
  keeps_registries c -> (forall a, keeps_registries (k a)) -> keeps_registries (bind c k).
Proof.
  intros Hc Hk w. unfold bind. specialize (Hc w).
  destruct (c w) as [w1 [a|e]]; cbn in *; [|done].
  destruct (Hk a w1) as [-> ->]. done.
Qed.

Lemma keeps_registries_for_each {A} (l : list A) body :
  (forall x, keeps_registries (body x)) -> keeps_registries (for_each l body).
Proof.
  intros Hbody. induction l as [|x l IH]; [done|].
  cbn [for_each]. by apply keeps_registries_bind.
Qed.

Lemma keeps_registries_create_task d : keeps_registries (create_task d).
Proof.
  unfold create_task. apply keeps_registries_bind.
  - intros w. unfold IntervalSchedule_get_or_create. by destruct (objects_get _ _).
  - intros [[s r] c]. apply keeps_registries_bind.
    + intros w. unfold PeriodicTask_get_or_create. by destruct (objects_get _ _).
    + intros [[pk t] created]. destruct created; cbn [negb]; [done|].
      by apply keeps_registries_bind.
Qed.

Lemma keeps_registries_handle_task d : keeps_registries (handle_task d).
Proof.
  unfold handle_task. apply keeps_registries_bind; [apply keeps_registries_create_task|].
  intros [[pk t] created]. by destruct created.
Qed.

Lemma keeps_registries_handle_tasks tasks : keeps_registries (handle_tasks tasks).
Proof.
  unfold handle_tasks. repeat (apply keeps_registries_bind; [done|intros _]).
  apply keeps_registries_for_each, keeps_registries_handle_task.
Qed.

Lemma handle_tasks_one_record tasks w d :
  lookups_unique tasks w ->
  d ∈ tasks ->
  key_count (CeleryTaskConfiguration.name d)
    (periodic_tasks (foldl (fun w d => task_step d w) (after_wipe w) tasks)) = 1%nat.
Proof.
  intros Hu Hd. rewrite tasks_loop_key_count.
  rewrite decide_True by by apply list_elem_of_fmap_2.
  unfold lookups_unique, loop_lookups_unique in Hu. rewrite Forall_forall in Hu.
  destruct (Hu d Hd) as [_ HT]. lia.
Qed.

(** ** What a run writes *)

Lemma run_output_app {A} (c : Cmd A) w out :
  stdout (c w).1 = (stdout w ++ out)%list -> run_output c w = out.
Proof. unfold run_output. intros ->. by rewrite drop_app_length. Qed.

Lemma created_count_app l1 l2 :
  created_count (l1 ++ l2) = (created_count l1 + created_count l2)%nat.
Proof. unfold created_count. by rewrite List.filter_app, length_app. Qed.

Lemma updated_count_app l1 l2 :
  updated_count (l1 ++ l2) = (updated_count l1 + updated_count l2)%nat.
Proof. unfold updated_count. by rewrite List.filter_app, length_app. Qed.

Lemma startswith_app p s : startswith p (p +:+ s) = true.
Proof.
  unfold startswith. induction p as [|c p IH]; [by destruct s|].
  change (String c p +:+ s) with (String c (p +:+ s)). simpl.
  destruct (ascii_dec c c) as [_|Hne]; [exact IH|by destruct Hne].
Qed.

Lemma created_count_created ds :
  created_count (map (fun d => task_message d true) ds) = length ds.
Proof.
  unfold created_count. induction ds as [|d ds IH]; [done|].
  cbn [map List.filter].
  assert (is_created_message (task_message d true) = true) as ->
    by apply startswith_app.
  cbn [length]. by rewrite IH.
Qed.

Lemma updated_count_created ds :
  updated_count (map (fun d => task_message d true) ds) = 0%nat.
Proof.
  unfold updated_count. induction ds as [|d ds IH]; [done|].
  cbn [map List.filter].
  assert (is_updated_message (task_message d true) = false) as ->
    by (unfold is_updated_message, task_message; cbn; reflexivity).
  done.
Qed.

(** What lines 157-179 of [handle] write. *)
Lemma address_messages_counts master_copies proxy_factories_decl network_id :
  created_count (address_messages master_copies proxy_factories_decl network_id) = 0%nat /\
  updated_count (address_messages master_copies proxy_factories_decl network_id) = 0%nat.
Proof.
  unfold address_messages.
  destruct (dict_contains network_id master_copies),
    (dict_contains network_id proxy_factories_decl);
    split; vm_compute; reflexivity.
Qed.

Lemma address_messages_unrecognized master_copies proxy_factories_decl network_id :
  UNRECOGNIZED_NETWORK ∈ address_messages master_copies proxy_factories_decl network_id <->
  negb (dict_contains network_id master_copies
        && dict_contains network_id proxy_factories_decl) = true.
Proof.
  unfold address_messages, UNRECOGNIZED_NETWORK.
  destruct (dict_contains network_id master_copies),
    (dict_contains network_id proxy_factories_decl); cbn [negb andb app];
    rewrite ?elem_of_cons, elem_of_nil; split; intros H; try done;
    repeat (destruct H as [H|H]; try discriminate H); try done; tauto.
Qed.

Lemma addresses_result_stdout master_copies proxy_factories_decl net_version w :
  exists out,
    stdout (addresses_result master_copies proxy_factories_decl net_version w).1 =
      (stdout w ++ out)%list /\
    created_count out = 0%nat /\ updated_count out = 0%nat /\
    (UNRECOGNIZED_NETWORK ∈ out <->
     exists network_id, net_version = Returned network_id /\
       negb (dict_contains network_id master_copies
             && dict_contains network_id proxy_factories_decl) = true).
Proof.
  destruct net_version as [network_id|e]; cbn [addresses_result fst].
  - exists (address_messages master_copies proxy_factories_decl network_id).
    split; [done|].
    destruct (address_messages_counts master_copies proxy_factories_decl network_id)
      as [-> ->].
    do 2 (split; [done|]). rewrite address_messages_unrecognized. split.
    + intros Hb. by exists network_id.
    + by intros (? & [= <-] & Hb).
  - eexists. split; [done|]. split; [vm_compute; reflexivity|].
    split; [vm_compute; reflexivity|]. split.
    + intros [Hin|Hin%elem_of_nil]%elem_of_cons; [discriminate|done].
    + intros (? & ? & _). discriminate.
Qed.

Lemma task_message_SUCCESS d c : (task_message d c).1 = SUCCESS.
Proof. by destruct c. Qed.

Lemma task_messages_SUCCESS ds cs m :
  m ∈ zip_with task_message ds cs -> m.1 = SUCCESS.
Proof.
  revert cs. induction ds as [|d ds IH]; intros [|c cs]; cbn;
    try by intros ?%elem_of_nil.
  intros [->|Hin]%elem_of_cons; [apply task_message_SUCCESS|by eapply IH].
Qed.

(** ** Running the task phase again *)

Lemma tasks_phase_again tasks w w1 :
  lookups_unique tasks w ->
  namespaced tasks ->
  NoDup (map CeleryTaskConfiguration.name tasks) ->
  let wt := foldl (fun w d => task_step d w) (after_wipe w) tasks in
  interval_schedules w1 = interval_schedules wt ->
  periodic_tasks w1 = periodic_tasks wt ->
  let wt' := foldl (fun w d => task_step d w) (after_wipe w1) tasks in
  lookups_unique tasks w1 /\
  interval_schedules wt' = interval_schedules wt /\
  periodic_tasks wt' = periodic_tasks wt /\
  stdout wt' = (stdout (after_wipe w1) ++ map (fun d => task_message d true) tasks)%list.
Proof.
  intros Hu Hns Hnames wt HS1 HT1 wt'.
  assert (Forall (fun d => (schedule_count (declared_schedule d)
                              (interval_schedules (after_wipe w)) <= 1)%nat) tasks) as HS.
  { eapply Forall_impl; [exact Hu|]. by intros d [? _]. }
  assert (Forall (fun d => (schedule_count (declared_schedule d)
                              (interval_schedules (after_wipe w1)) <= 1)%nat) tasks) as HS1'.
  { cbn [after_wipe interval_schedules]. rewrite HS1.
    eapply Forall_impl; [exact HS|]. intros d Hd.
    by apply tasks_loop_schedule_count_le. }
  assert (Forall (fun d => key_count (CeleryTaskConfiguration.name d)
                             (periodic_tasks (after_wipe w)) = 0%nat) tasks) as Hfresh.
  { eapply Forall_impl; [exact Hns|]. intros d Hd. by apply key_count_wipe_namespace. }
  assert (Forall (fun d => key_count (CeleryTaskConfiguration.name d)
                             (periodic_tasks (after_wipe w1)) = 0%nat) tasks) as Hfresh1.
  { eapply Forall_impl; [exact Hns|]. intros d Hd. by apply key_count_wipe_namespace. }
  destruct (tasks_loop_fresh tasks (after_wipe w) HS Hnames Hfresh) as [HT _].
  destruct (tasks_loop_fresh tasks (after_wipe w1) HS1' Hnames Hfresh1) as [HT' Hout'].
  fold wt in HT. fold wt' in HT', Hout'.
  assert (interval_schedules wt' = interval_schedules wt) as HSeq.
  { unfold wt'. rewrite tasks_loop_schedules_present.
    - done.
    - apply Forall_forall. intros d Hd. cbn [after_wipe interval_schedules].
      rewrite HS1. by apply tasks_loop_schedule_declared. }
  split; [by apply namespaced_lookups_unique|].
  split; [done|]. split; [|done].
  rewrite HT', HSeq, HT. cbn [after_wipe periodic_tasks].
  rewrite HT1, HT. cbn [after_wipe periodic_tasks].
  rewrite wipe_app, wipe_wipe, wipe_declared_rows by done.
  by rewrite app_nil_r.
Qed.

(** ** The whole command *)

Lemma TASKS_namespaced ETH_L2_NETWORK : namespaced (TASKS ETH_L2_NETWORK).
Proof. repeat constructor. Qed.

Lemma TASKS_names_NoDup ETH_L2_NETWORK :
  NoDup (map CeleryTaskConfiguration.name (TASKS ETH_L2_NETWORK)).
Proof. apply (bool_decide_unpack _). vm_compute. exact I. Qed.

(** On a schedule table without duplicate rows no lookup of a run over
    [TASKS] can find several rows. *)
Lemma TASKS_lookups_unique ETH_L2_NETWORK w :
  NoDup (interval_schedules w) -> lookups_unique (TASKS ETH_L2_NETWORK) w.
Proof. apply NoDup_lookups_unique, TASKS_namespaced. Qed.

Lemma dict_contains_MASTER_COPIES network_id :
  dict_contains network_id MASTER_COPIES = bool_decide (network_id = "7001").
Proof.
  rewrite dict_contains_lookup. unfold MASTER_COPIES. rewrite lookup_singleton.
  destruct (decide ("7001" = network_id)) as [<-|Hne]; [done|].
  symmetry. apply bool_decide_eq_false_2. congruence.
Qed.

Lemma dict_contains_PROXY_FACTORIES network_id :
  dict_contains network_id PROXY_FACTORIES = bool_decide (network_id = "7001").
Proof.
  rewrite dict_contains_lookup. unfold PROXY_FACTORIES. rewrite lookup_singleton.
  destruct (decide ("7001" = network_id)) as [<-|Hne]; [done|].
  symmetry. apply bool_decide_eq_false_2. congruence.
Qed.

(** What a run writes: the two lines about the removal, a line for every
    task, and the lines about the addresses. *)
Lemma handle_with_stdout tasks master_copies proxy_factories_decl net_version w :
  lookups_unique tasks w ->
  exists cs out,
    run_output (handle_with tasks master_copies proxy_factories_decl net_version) w =
      ([(SUCCESS, "Removing old tasks"); (SUCCESS, "Old tasks were removed")] ++
       zip_with task_message tasks cs ++ out)%list /\
    created_count out = 0%nat /\ updated_count out = 0%nat /\
    (UNRECOGNIZED_NETWORK ∈ out <->
     exists network_id, net_version = Returned network_id /\
       negb (dict_contains network_id master_copies
             && dict_contains network_id proxy_factories_decl) = true).
Proof.
  intros Hu.
  destruct (tasks_loop_stdout tasks (after_wipe w)) as (cs & _ & Hcs).
  destruct (addresses_result_stdout master_copies proxy_factories_decl net_version
              (foldl (fun w d => task_step d w) (after_wipe w) tasks))
    as (out & Hout & Hc & Hupd & Hw).
  exists cs, out. split; [|done].
  apply run_output_app. rewrite handle_with_run by done.
  rewrite Hout, Hcs. cbn [after_wipe stdout]. by rewrite <- !app_assoc.
Qed.

(** Whatever the tables, the warning is written exactly when the network is
    not a key of both of them. *)
Lemma warning_iff_not_in_both_tables tasks master_copies proxy_factories_decl
  network_id w :
  lookups_unique tasks w ->
  UNRECOGNIZED_NETWORK ∈
    run_output (handle_with tasks master_copies proxy_factories_decl
                  (Returned network_id)) w <->
  dict_contains network_id master_copies
  && dict_contains network_id proxy_factories_decl = false.
Proof.
  intros Hu.
  destruct (handle_with_stdout tasks master_copies proxy_factories_decl
              (Returned network_id) w Hu) as (cs & out & -> & _ & _ & Hw).
  rewrite !elem_of_app, Hw. split.
  - intros [Hin|[Hin|(id & [= <-] & Hb)]].
    + apply elem_of_cons in Hin as [?|Hin]; [discriminate|].
      apply elem_of_cons in Hin as [?|Hin]; [discriminate|].
      by apply elem_of_nil in Hin.
    + apply task_messages_SUCCESS in Hin. discriminate.
    + by apply negb_true_iff.
  - intros Hb. right. right. exists network_id. split; [done|].
    by apply negb_true_iff.
Qed.

(** A run in which a lookup of the task phase finds several rows raises
    [MultipleObjectsReturned] before it asks for the network. *)
Lemma handle_with_raises tasks master_copies proxy_factories_decl net_version w :
  ~ lookups_unique tasks w ->
  (handle_with tasks master_copies proxy_factories_decl net_version w).2 =
  Raised MultipleObjectsReturned.
Proof.
  intros Hnu. unfold handle_with, bind. rewrite handle_tasks_unfold.
  destruct (tasks_loop_outcome tasks (after_wipe w)) as [[Hu _]|[_ Hr]]; [done|].
  destruct (for_each tasks handle_task (after_wipe w)) as [w1 [[]|e]];
    cbn in Hr |- *; congruence.
Qed.

(** ** Records that are updated in place *)

(** A key that is stored once is stored at one position. *)
Lemma key_count_lookup key T i j ri rj :
  (key_count key T <= 1)%nat ->
  T !! i = Some ri -> T !! j = Some rj ->
  PeriodicTask.task ri = key -> PeriodicTask.task rj = key -> i = j.
Proof.
  revert i j. induction T as [|x T IH]; intros i j Hle Hi Hj Hki Hkj; [done|].
  assert (forall k rk, T !! k = Some rk -> PeriodicTask.task rk = key ->
                       (1 <= key_count key T)%nat) as Hone.
  { intros k rk Hk Hkey. rewrite <- (take_drop_middle T k rk Hk).
    rewrite key_count_app. change (rk :: drop (S k) T) with ([rk] ++ drop (S k) T)%list.
    rewrite key_count_app, key_count_singleton.
    apply String.eqb_eq in Hkey. rewrite Hkey. lia. }
  change (x :: T) with ([x] ++ T)%list in Hle.
  rewrite key_count_app, key_count_singleton in Hle.
  destruct i as [|i], j as [|j]; cbn in Hi, Hj; [done| | |].
  - injection Hi as ->. apply String.eqb_eq in Hki. rewrite Hki in Hle.
    specialize (Hone j rj Hj Hkj). lia.
  - injection Hj as ->. apply String.eqb_eq in Hkj. rewrite Hkj in Hle.
    specialize (Hone i ri Hi Hki). lia.
  - f_equal. apply IH; try done. lia.
Qed.

(** The lookup of [create_task] finds the record of the key where it is. *)
Lemma task_position_lookup key T i r :
  (key_count key T <= 1)%nat ->
  T !! i = Some r -> PeriodicTask.task r = key ->
  task_position key T = i.
Proof.
  intros Hle Hi Hkey. unfold task_position.
  destruct (objects_get (task_matches key) T) as [|j r'|] eqn:Hget.
  - apply objects_get_does_not_exist in Hget.
    assert (In r (List.filter (task_matches key) T)) as Hin.
    { apply filter_In. split.
      - apply list_elem_of_In. by eapply list_elem_of_lookup_2.
      - by apply task_matches_eq. }
    rewrite Hget in Hin. destruct Hin.
  - apply objects_get_found in Hget as (Hj & Hk%task_matches_eq & _).
    by eapply key_count_lookup.
  - apply objects_get_multiple in Hget. unfold key_count in Hle. lia.
Qed.

Lemma tasks_loop_lookups_unique ds ds' w :
  loop_lookups_unique ds' w ->
  loop_lookups_unique ds' (foldl (fun w d => task_step d w) w ds).
Proof.
  revert w. induction ds as [|d ds IH]; intros w Hu; [done|].
  rewrite tasks_loop_cons. by apply IH, task_step_lookups_unique.
Qed.

(** A stored record whose key is declared holds, after the loop, what the
    last declaration of that key says, at the position it had. *)
Lemma tasks_loop_updated_in_place pre d post w i r :
  loop_lookups_unique (pre ++ d :: post) w ->
  CeleryTaskConfiguration.name d ∉ map CeleryTaskConfiguration.name post ->
  periodic_tasks w !! i = Some r ->
  PeriodicTask.task r = CeleryTaskConfiguration.name d ->
  let w' := foldl (fun w d => task_step d w) w (pre ++ d :: post) in
  let s := schedule_position (declared_schedule d) (interval_schedules w') in
  interval_schedules w' !! s = Some (declared_schedule d) /\
  periodic_tasks w' !! i = Some (declared_row d s).
Proof.
  intros Hu Hd Hi Hkey. cbn zeta. rewrite foldl_app.
  apply Forall_app in Hu as [_ Hu].
  apply (tasks_loop_lookups_unique pre (d :: post)) in Hu.
  destruct (tasks_loop_kept pre w i r Hi) as (r1 & Hi1 & Hk1 & _).
  set (w1 := foldl (fun w d => task_step d w) w pre) in *.
  apply Forall_cons in Hu as [[HS0 HT0] Hu].
  rewrite tasks_loop_cons.
  set (s0 := schedule_position (declared_schedule d) (interval_schedules w1)).
  assert (interval_schedules (task_step d w1) !! s0 = Some (declared_schedule d)) as Hs0.
  { rewrite task_step_schedules. apply with_schedule_lookup.
    by apply objects_get_unique. }
  rewrite (schedule_position_stable _ (interval_schedules (task_step d w1)) _ s0);
    [| |apply tasks_loop_prefix|done].
  2:{ apply tasks_loop_schedule_count_le. rewrite task_step_schedules.
      by apply schedule_count_with_schedule_le. }
  split.
  { eapply prefix_lookup_Some; [exact Hs0|apply tasks_loop_prefix]. }
  destruct (tasks_loop_kept post (task_step d w1) i (declared_row d s0))
    as (r' & Hr' & _ & Hsame).
  { rewrite task_step_tasks.
    rewrite <- (task_position_lookup (CeleryTaskConfiguration.name d)
                  (periodic_tasks w1) i r1) at 1 by congruence.
    apply (with_task_lookup (declared_row d s0)).
    by apply objects_get_task_unique. }
  rewrite Hr', Hsame; done.
Qed.

(** C1 (defect of the code): the drift branch is meant to bring both
    [initial_block_number] and [version] to the declared values.  On a stored
    master copy of network 7001 with initial block 9000 and version 1.2.0,
    declared with initial block 9242 and version 1.3.0, a run updates the
    version and leaves the initial block at 9000. *)
Theorem C1_initial_block_number_not_corrected :
  exists r,
    safe_master_copies (handle false (Returned "7001") stale_master_copy_world).1
      !! "0xd9Db270c1B5E3Bd161E8c8503c55cEABeE709552" = Some r /\
    MASTER_COPIES !! "7001" =
      Some [ ("0xd9Db270c1B5E3Bd161E8c8503c55cEABeE709552", 9242, "1.3.0");
             ("0x3E5c63644E683549055b9Be8653de26E0B4CD36E", 9239, "1.3.0+L2") ] /\
    SafeMasterCopyRow.version r = "1.3.0" /\
    SafeMasterCopyRow.initial_block_number r = 9000 /\
    SafeMasterCopyRow.initial_block_number r <> 9242.
Proof.
  eexists. split; [vm_compute; reflexivity|].
  split; [vm_compute; reflexivity|]. cbn. repeat split. lia.
Qed.

(** C5: an address that has a proxy-factory entry keeps exactly that entry
    through [_setup_safe_proxy_factories], whatever the declarations say
    about it, and the reconciliation returns. *)
Theorem C5_proxy_factory_entry_unchanged
  (decls : list (string * Z)) (w : World) (a : string) (r : ProxyFactory.t) :
  proxy_factories w !! a = Some r ->
  exists w', _setup_safe_proxy_factories decls w = (w', Returned tt) /\
    proxy_factories w' !! a = Some r.
Proof.
  intros Hr. eexists. split; [apply _setup_safe_proxy_factories_run|].
  cbn. by apply proxy_factories_some.
Qed.

Lemma C5_proxy_factory_entry_unchanged_witness :
  exists w',
    _setup_safe_proxy_factories
      [("0xa6B71E26C5e0845f74c812102Ca7114b6a896AB2", 9223)]
      stale_proxy_factory_world = (w', Returned tt) /\
    proxy_factories w' !! "0xa6B71E26C5e0845f74c812102Ca7114b6a896AB2" =
      Some {| ProxyFactory.initial_block_number := 9000;
              ProxyFactory.tx_block_number := 9100 |}.
Proof.
  apply (C5_proxy_factory_entry_unchanged
           [("0xa6B71E26C5e0845f74c812102Ca7114b6a896AB2", 9223)]
           stale_proxy_factory_world).
  vm_compute. reflexivity.
Defined.

(** C6: [_setup_safe_master_copies] always returns; an address that has an
    entry keeps the entry's [tx_block_number] and [l2], drift or no drift;
    an address without entry gets one whose [tx_block_number] is the initial
    block of the first declaration of that address. *)
Theorem C6_tx_block_number_and_l2_kept
  (decls : list (string * Z * string)) (w : World) (a : string) :
  exists w', _setup_safe_master_copies decls w = (w', Returned tt) /\
    (forall r, safe_master_copies w !! a = Some r ->
       exists r', safe_master_copies w' !! a = Some r' /\
         SafeMasterCopyRow.tx_block_number r' = SafeMasterCopyRow.tx_block_number r /\
         SafeMasterCopyRow.l2 r' = SafeMasterCopyRow.l2 r) /\
    (forall pre b v post,
       safe_master_copies w !! a = None ->
       decls = (pre ++ (a, b, v) :: post)%list ->
       a ∉ map (fun d : string * Z * string => d.1.1) pre ->
       exists r', safe_master_copies w' !! a = Some r' /\
         SafeMasterCopyRow.tx_block_number r' = b /\
         SafeMasterCopyRow.l2 r' = endswith v "+L2").
Proof.
  eexists. split; [apply _setup_safe_master_copies_run|].
  cbn [safe_master_copies set_safe_master_copies]. split.
  - intros r Hr. rewrite master_copies_lookup, Hr.
    destruct (master_copy_entries_some a decls r) as (r' & Hr' & _ & ? & ?).
    by exists r'.
  - intros pre b v post Hnone -> Hpre.
    rewrite master_copies_lookup, Hnone, master_copy_entries_app.
    rewrite (master_copy_entries_other a pre None Hpre).
    rewrite master_copy_entries_cons.
    destruct (decide (a = a)) as [_|]; [|done].
    destruct (master_copy_entries_some a post (master_copy_entry b v None))
      as (r' & Hr' & _ & ? & ?).
    by exists r'.
Qed.

Lemma C6_tx_block_number_and_l2_kept_witness :
  exists w',
    _setup_safe_master_copies
      [("0xd9Db270c1B5E3Bd161E8c8503c55cEABeE709552", 9242, "1.3.0+L2")]
      stale_master_copy_world = (w', Returned tt) /\
    exists r',
      safe_master_copies w' !! "0xd9Db270c1B5E3Bd161E8c8503c55cEABeE709552" = Some r' /\
      SafeMasterCopyRow.tx_block_number r' = 9100 /\
      SafeMasterCopyRow.l2 r' = false.
Proof.
  destruct (C6_tx_block_number_and_l2_kept
              [("0xd9Db270c1B5E3Bd161E8c8503c55cEABeE709552", 9242, "1.3.0+L2")]
              stale_master_copy_world
              "0xd9Db270c1B5E3Bd161E8c8503c55cEABeE709552") as (w' & Hrun & Hkept & _).
  exists w'. split; [exact Hrun|].
  apply (Hkept {| SafeMasterCopyRow.initial_block_number := 9000;
                  SafeMasterCopyRow.tx_block_number := 9100;
                  SafeMasterCopyRow.version := "1.2.0";
                  SafeMasterCopyRow.l2 := false |}).
  vm_compute. reflexivity.
Defined.

(** C9: when an iteration of [_setup_safe_master_copies] meets an entry whose
    version or initial block differs from the declaration, it returns and
    the entry it leaves has the declared version string, the initial block
    it had before, and every other column as before. *)
Theorem C9_drift_sets_version_only
  (address : string) (initial_block_number : Z) (version : string)
  (w : World) (r : SafeMasterCopyRow.t) :
  safe_master_copies w !! address = Some r ->
  SafeMasterCopyRow.version r <> version \/
    SafeMasterCopyRow.initial_block_number r <> initial_block_number ->
  exists w',
    setup_safe_master_copy (address, initial_block_number, version) w = (w', Returned tt) /\
    safe_master_copies w' !! address =
      Some {| SafeMasterCopyRow.initial_block_number :=
                SafeMasterCopyRow.initial_block_number r;
              SafeMasterCopyRow.tx_block_number := SafeMasterCopyRow.tx_block_number r;
              SafeMasterCopyRow.version := version;
              SafeMasterCopyRow.l2 := SafeMasterCopyRow.l2 r |} /\
    (forall a, a <> address -> safe_master_copies w' !! a = safe_master_copies w !! a).
Proof.
  intros Hr _. eexists. split; [apply setup_safe_master_copy_run|]. cbn. split.
  - by rewrite lookup_insert_eq, Hr.
  - intros a Ha. by rewrite lookup_insert_ne.
Qed.

Lemma C9_drift_sets_version_only_witness :
  exists w',
    setup_safe_master_copy
      ("0xd9Db270c1B5E3Bd161E8c8503c55cEABeE709552", 9242, "1.3.0")
      stale_master_copy_world = (w', Returned tt) /\
    safe_master_copies w' !! "0xd9Db270c1B5E3Bd161E8c8503c55cEABeE709552" =
      Some {| SafeMasterCopyRow.initial_block_number := 9000;
              SafeMasterCopyRow.tx_block_number := 9100;
              SafeMasterCopyRow.version := "1.3.0";
              SafeMasterCopyRow.l2 := false |} /\
    (forall a, a <> "0xd9Db270c1B5E3Bd161E8c8503c55cEABeE709552" ->
       safe_master_copies w' !! a = safe_master_copies stale_master_copy_world !! a).
Proof.
  apply (C9_drift_sets_version_only
           "0xd9Db270c1B5E3Bd161E8c8503c55cEABeE709552" 9242 "1.3.0"
           stale_master_copy_world
           {| SafeMasterCopyRow.initial_block_number := 9000;
              SafeMasterCopyRow.tx_block_number := 9100;
              SafeMasterCopyRow.version := "1.2.0";
              SafeMasterCopyRow.l2 := false |}).
  - vm_compute. reflexivity.
  - left. cbn. discriminate.
Defined.

(** C10: when no lookup of [create_task] finds several rows, [create_task]
    returns the record of the declaration: its label, schedule and enabled
    flag are the declared ones, the schedule it refers to is the stored row
    of the declared interval, it is the only record with the declared name,
    and, when the name was already the key of a record, that record is
    overwritten in place ([created] is false) whatever it held. *)
Theorem C10_create_task_stores_declaration
  (d : CeleryTaskConfiguration.t) (w : World) :
  (length (List.filter
             (interval_matches (CeleryTaskConfiguration.interval d)
                (CeleryTaskConfiguration.period d))
             (interval_schedules w)) <= 1)%nat ->
  (key_count (CeleryTaskConfiguration.name d) (periodic_tasks w) <= 1)%nat ->
  exists w' pk s created,
    create_task d w = (w', Returned (pk, declared_row d s, created)) /\
    interval_schedules w' !! s = Some (declared_schedule d) /\
    periodic_tasks w' !! pk = Some (declared_row d s) /\
    key_count (CeleryTaskConfiguration.name d) (periodic_tasks w') = 1%nat /\
    (forall i r0,
       objects_get (task_matches (CeleryTaskConfiguration.name d)) (periodic_tasks w)
         = Found i r0 ->
       created = false /\ pk = i /\
       periodic_tasks w' = <[i := declared_row d s]> (periodic_tasks w)).
Proof.
  intros HS HT.
  assert (objects_get (schedule_matches (declared_schedule d)) (interval_schedules w)
          <> MultipleFound) as HS'.
  { intros Hm%objects_get_multiple. unfold schedule_matches, declared_schedule in Hm.
    cbn in Hm. lia. }
  pose proof (objects_get_task_unique _ _ HT) as HT'.
  eexists _, _, _, _. split; [by apply create_task_run|].
  cbn [interval_schedules periodic_tasks]. split; [by apply with_schedule_lookup|].
  split; [by apply (with_task_lookup (declared_row d _))|]. split.
  - rewrite key_count_with_task. cbn [declared_row PeriodicTask.task].
    rewrite String.eqb_refl, andb_true_r.
    destruct (task_created _ _) eqn:Hc.
    + apply task_created_key_count in Hc. lia.
    + assert (key_count (CeleryTaskConfiguration.name d) (periodic_tasks w) <> 0%nat).
      { intros H0%task_created_key_count. congruence. }
      lia.
  - intros i r0 Hget. unfold task_created, task_position, with_task.
    cbn [declared_row PeriodicTask.task]. by rewrite Hget.
Qed.

Lemma C10_create_task_stores_declaration_witness :
  exists w' pk s created,
    create_task
      (mk_task "safe_transaction_service.history.tasks.check_reorgs_task"
         "Check Reorgs" 3 MINUTES true)
      stale_task_world
    = (w', Returned (pk,
         declared_row
           (mk_task "safe_transaction_service.history.tasks.check_reorgs_task"
              "Check Reorgs" 3 MINUTES true) s,
         created)) /\
    interval_schedules w' !! s = Some {| IntervalSchedule.every := 3;
                                         IntervalSchedule.period := MINUTES |} /\
    periodic_tasks w' !! pk =
      Some {| PeriodicTask.task := "safe_transaction_service.history.tasks.check_reorgs_task";
              PeriodicTask.name := "Check Reorgs";
              PeriodicTask.interval := s;
              PeriodicTask.enabled := true |} /\
    key_count "safe_transaction_service.history.tasks.check_reorgs_task"
      (periodic_tasks w') = 1%nat.
Proof.
  destruct (C10_create_task_stores_declaration
              (mk_task "safe_transaction_service.history.tasks.check_reorgs_task"
                 "Check Reorgs" 3 MINUTES true)
              stale_task_world) as (w' & pk & s & created & Hrun & HS & HT & Hc & _).
  - vm_compute. lia.
  - vm_compute. lia.
  - exists w', pk, s, created. repeat split; assumption.
Defined.

(** C4: [handle] first removes every task record whose key starts with the
    namespace prefix and then runs [create_task] for every declaration.  The
    task phase returns exactly when no lookup can find several rows (every
    declared interval is stored at most once and, outside the namespace,
    every declared name is the key of at most one record).  The task table
    then holds exactly one record for every declared name; an undeclared key
    has the records it had outside the namespace and none inside; every
    record that survived the removal is still at its position with its key;
    and a record that survived the removal and whose key is a declared name
    is updated in place: at its position it now holds the label, the
    schedule and the enabled flag of the last declaration of that name, the
    schedule being the stored row of the declared interval. *)
Theorem C4_one_record_per_declared_name
  (tasks : list CeleryTaskConfiguration.t) (w : World) :
  ((handle_tasks tasks w).2 = Returned tt <-> lookups_unique tasks w) /\
  (lookups_unique tasks w ->
   exists w',
     handle_tasks tasks w = (w', Returned tt) /\
     for_each tasks handle_task (after_wipe w) = (w', Returned tt) /\
     (forall d, d ∈ tasks ->
        key_count (CeleryTaskConfiguration.name d) (periodic_tasks w') = 1%nat) /\
     (forall key, key ∉ map CeleryTaskConfiguration.name tasks ->
        key_count key (periodic_tasks w') =
        if startswith NAMESPACE key then 0%nat else key_count key (periodic_tasks w)) /\
     (forall i r, wipe (periodic_tasks w) !! i = Some r ->
        exists r', periodic_tasks w' !! i = Some r' /\
          PeriodicTask.task r' = PeriodicTask.task r /\
          (PeriodicTask.task r ∉ map CeleryTaskConfiguration.name tasks -> r' = r)) /\
     (forall pre d post i r,
        tasks = (pre ++ d :: post)%list ->
        CeleryTaskConfiguration.name d ∉ map CeleryTaskConfiguration.name post ->
        wipe (periodic_tasks w) !! i = Some r ->
        PeriodicTask.task r = CeleryTaskConfiguration.name d ->
        exists s,
          interval_schedules w' !! s =
            Some {| IntervalSchedule.every := CeleryTaskConfiguration.interval d;
                    IntervalSchedule.period := CeleryTaskConfiguration.period d |} /\
          periodic_tasks w' !! i =
            Some {| PeriodicTask.task := CeleryTaskConfiguration.name d;
                    PeriodicTask.name := CeleryTaskConfiguration.description d;
                    PeriodicTask.interval := s;
                    PeriodicTask.enabled := CeleryTaskConfiguration.enabled d |})).
Proof.
  split; [apply handle_tasks_returns|].
  intros Hu. eexists. split; [by apply handle_tasks_run|].
  split; [by apply (tasks_loop_run tasks (after_wipe w))|]. split; [|split; [|split]].
  - intros d Hd. by apply handle_tasks_one_record.
  - intros key Hkey. rewrite tasks_loop_key_count, decide_False by done.
    cbn [after_wipe periodic_tasks].
    destruct (startswith NAMESPACE key) eqn:Hns.
    + by apply key_count_wipe_namespace.
    + by apply key_count_wipe_other.
  - intros i r Hi. by apply (tasks_loop_kept tasks (after_wipe w)).
  - intros pre d post i r Htasks Hd Hi Hkey. subst tasks. eexists.
    by apply (tasks_loop_updated_in_place pre d post (after_wipe w) i r).
Qed.

Lemma C4_one_record_per_declared_name_witness :
  exists w',
    handle_tasks collision_tasks stale_task_world = (w', Returned tt) /\
    for_each collision_tasks handle_task (after_wipe stale_task_world) =
      (w', Returned tt) /\
    (forall d, d ∈ collision_tasks ->
       key_count (CeleryTaskConfiguration.name d) (periodic_tasks w') = 1%nat) /\
    (forall key, key ∉ map CeleryTaskConfiguration.name collision_tasks ->
       key_count key (periodic_tasks w') =
       if startswith NAMESPACE key then 0%nat
       else key_count key (periodic_tasks stale_task_world)) /\
    (forall i r, wipe (periodic_tasks stale_task_world) !! i = Some r ->
       exists r', periodic_tasks w' !! i = Some r' /\
         PeriodicTask.task r' = PeriodicTask.task r /\
         (PeriodicTask.task r ∉ map CeleryTaskConfiguration.name collision_tasks ->
          r' = r)) /\
    (wipe (periodic_tasks stale_task_world) !! 0%nat =
       Some {| PeriodicTask.task := "celery.backend_cleanup";
               PeriodicTask.name := "Backend cleanup";
               PeriodicTask.interval := 0;
               PeriodicTask.enabled := true |} /\
     exists s,
       interval_schedules w' !! s =
         Some {| IntervalSchedule.every := 3; IntervalSchedule.period := MINUTES |} /\
       periodic_tasks w' !! 0%nat =
         Some {| PeriodicTask.task := "celery.backend_cleanup";
                 PeriodicTask.name := "Clean up the result backend";
                 PeriodicTask.interval := s;
                 PeriodicTask.enabled := false |}).
Proof.
  destruct (C4_one_record_per_declared_name collision_tasks stale_task_world)
    as [_ Hrun].
  destruct Hrun as (w' & Hrun & Hloop & Hone & Hother & Hkept & Hupdated).
  - unfold lookups_unique, loop_lookups_unique.
    apply (bool_decide_unpack _). vm_compute. exact I.
  - exists w'. do 5 (split; [assumption|]). split; [reflexivity|].
    apply (Hupdated []
             (mk_task "celery.backend_cleanup" "Clean up the result backend"
                3 MINUTES false)
             [mk_task "safe_transaction_service.history.tasks.check_reorgs_task"
                "Check Reorgs" 3 MINUTES true]
             0%nat
             {| PeriodicTask.task := "celery.backend_cleanup";
                PeriodicTask.name := "Backend cleanup";
                PeriodicTask.interval := 0;
                PeriodicTask.enabled := true |}).
    + reflexivity.
    + cbn. rewrite list_elem_of_singleton. discriminate.
    + reflexivity.
    + reflexivity.
Defined.

(** C8: when no lookup of the task phase can find several rows and the
    declared names are distinct, the task phase returns; every declared
    interval is then the interval of exactly one stored schedule; a schedule
    table in which no interval was stored twice is still such a table; and
    the records of two declarations with the same interval and period refer
    to the same schedule row, which holds that interval and period. *)
Theorem C8_same_interval_same_schedule
  (tasks : list CeleryTaskConfiguration.t) (w : World) :
  lookups_unique tasks w ->
  NoDup (map CeleryTaskConfiguration.name tasks) ->
  exists w',
    handle_tasks tasks w = (w', Returned tt) /\
    (forall d, d ∈ tasks ->
       length (List.filter
                 (interval_matches (CeleryTaskConfiguration.interval d)
                    (CeleryTaskConfiguration.period d))
                 (interval_schedules w')) = 1%nat) /\
    ((forall every period,
        (length (List.filter (interval_matches every period) (interval_schedules w))
         <= 1)%nat) ->
     forall every period,
       (length (List.filter (interval_matches every period) (interval_schedules w'))
        <= 1)%nat) /\
    (forall d1 d2, d1 ∈ tasks -> d2 ∈ tasks ->
       CeleryTaskConfiguration.interval d1 = CeleryTaskConfiguration.interval d2 ->
       CeleryTaskConfiguration.period d1 = CeleryTaskConfiguration.period d2 ->
       exists s pk1 pk2,
         interval_schedules w' !! s = Some (declared_schedule d1) /\
         periodic_tasks w' !! pk1 = Some (declared_row d1 s) /\
         periodic_tasks w' !! pk2 = Some (declared_row d2 s)).
Proof.
  intros Hu Hnames. eexists. split; [by apply handle_tasks_run|].
  split; [|split].
  - intros d Hd.
    change (schedule_count (declared_schedule d)
              (interval_schedules
                 (foldl (fun w d => task_step d w) (after_wipe w) tasks)) = 1%nat).
    pose proof (schedule_count_elem _ _
                  (tasks_loop_schedule_declared tasks (after_wipe w) d Hd)).
    unfold lookups_unique, loop_lookups_unique in Hu. rewrite Forall_forall in Hu.
    destruct (Hu d Hd) as [HS _].
    pose proof (tasks_loop_schedule_count_le tasks (after_wipe w) _ HS). lia.
  - intros Hall every period.
    apply (tasks_loop_schedule_count_le tasks (after_wipe w)
             {| IntervalSchedule.every := every; IntervalSchedule.period := period |}).
    apply Hall.
  - intros d1 d2 Hd1 Hd2 Hevery Hperiod.
    destruct (tasks_loop_declared_rows tasks (after_wipe w) d1 Hu Hnames Hd1)
      as (Hs1 & pk1 & Hpk1).
    destruct (tasks_loop_declared_rows tasks (after_wipe w) d2 Hu Hnames Hd2)
      as (_ & pk2 & Hpk2).
    assert (declared_schedule d2 = declared_schedule d1) as Heq.
    { unfold declared_schedule. by rewrite Hevery, Hperiod. }
    rewrite Heq in Hpk2. cbn zeta in Hs1.
    eexists _, pk1, pk2. split; [exact Hs1|]. split; [exact Hpk1|exact Hpk2].
Qed.

Lemma C8_same_interval_same_schedule_witness :
  exists w',
    handle_tasks (TASKS false) stale_task_world = (w', Returned tt) /\
    (forall d, d ∈ TASKS false ->
       length (List.filter
                 (interval_matches (CeleryTaskConfiguration.interval d)
                    (CeleryTaskConfiguration.period d))
                 (interval_schedules w')) = 1%nat) /\
    ((forall every period,
        (length (List.filter (interval_matches every period)
                   (interval_schedules stale_task_world)) <= 1)%nat) ->
     forall every period,
       (length (List.filter (interval_matches every period) (interval_schedules w'))
        <= 1)%nat) /\
    (forall d1 d2, d1 ∈ TASKS false -> d2 ∈ TASKS false ->
       CeleryTaskConfiguration.interval d1 = CeleryTaskConfiguration.interval d2 ->
       CeleryTaskConfiguration.period d1 = CeleryTaskConfiguration.period d2 ->
       exists s pk1 pk2,
         interval_schedules w' !! s = Some (declared_schedule d1) /\
         periodic_tasks w' !! pk1 = Some (declared_row d1 s) /\
         periodic_tasks w' !! pk2 = Some (declared_row d2 s)).
Proof.
  apply (C8_same_interval_same_schedule (TASKS false) stale_task_world).
  - unfold lookups_unique, loop_lookups_unique.
    apply (bool_decide_unpack _). vm_compute. exact I.
  - apply (bool_decide_unpack _). vm_compute. exact I.
Defined.

(** C2: a run of [handle] that gets the network identifier [network_id]
    (its task phase has returned: no lookup could find several rows) returns;
    it writes the warning about the network exactly when the identifier is a
    key neither of [MASTER_COPIES] nor of [PROXY_FACTORIES]; and in that case
    it leaves both registries as they were. *)
Theorem C2_warning_iff_unrecognized
  (ETH_L2_NETWORK : bool) (network_id : string) (w : World) :
  lookups_unique (TASKS ETH_L2_NETWORK) w ->
  (handle ETH_L2_NETWORK (Returned network_id) w).2 = Returned tt /\
  (UNRECOGNIZED_NETWORK ∈ run_output (handle ETH_L2_NETWORK (Returned network_id)) w <->
   recognized network_id MASTER_COPIES PROXY_FACTORIES = false) /\
  (recognized network_id MASTER_COPIES PROXY_FACTORIES = false ->
   safe_master_copies (handle ETH_L2_NETWORK (Returned network_id) w).1 =
     safe_master_copies w /\
   proxy_factories (handle ETH_L2_NETWORK (Returned network_id) w).1 =
     proxy_factories w).
Proof.
  intros Hu. unfold handle, recognized.
  rewrite dict_contains_MASTER_COPIES, dict_contains_PROXY_FACTORIES, orb_diag.
  split; [by rewrite handle_with_run|]. split.
  - rewrite (warning_iff_not_in_both_tables _ _ _ _ _ Hu).
    by rewrite dict_contains_MASTER_COPIES, dict_contains_PROXY_FACTORIES, andb_diag.
  - intros Hb%bool_decide_eq_false. rewrite handle_with_run by done.
    cbn [addresses_result fst addresses_world safe_master_copies proxy_factories].
    unfold MASTER_COPIES, PROXY_FACTORIES.
    rewrite !lookup_singleton_ne by congruence. cbn [default foldl].
    apply (tasks_loop_registries (TASKS ETH_L2_NETWORK) (after_wipe w)).
Qed.

Lemma C2_warning_iff_unrecognized_witness :
  (handle false (Returned "1") stale_task_world).2 = Returned tt /\
  (UNRECOGNIZED_NETWORK ∈ run_output (handle false (Returned "1")) stale_task_world <->
   recognized "1" MASTER_COPIES PROXY_FACTORIES = false) /\
  (recognized "1" MASTER_COPIES PROXY_FACTORIES = false ->
   safe_master_copies (handle false (Returned "1") stale_task_world).1 =
     safe_master_copies stale_task_world /\
   proxy_factories (handle false (Returned "1") stale_task_world).1 =
     proxy_factories stale_task_world).
Proof.
  apply (C2_warning_iff_unrecognized false "1" stale_task_world).
  unfold lookups_unique, loop_lookups_unique.
  apply (bool_decide_unpack _). vm_compute. exact I.
Defined.

(** C7: when the query of the network identifier raises [e], the schedule
    and task tables a run of [handle] leaves are those the task phase alone
    leaves, and both registries are as they were.  The query is made when the
    task phase has returned, that is when no lookup could find several rows:
    the run then raises [e] and leaves exactly one record for every declared
    name. *)
Theorem C7_tasks_run_without_network
  (tasks : list CeleryTaskConfiguration.t)
  (master_copies : gmap string (list (string * Z * string)))
  (proxy_factories_decl : gmap string (list (string * Z)))
  (e : Exn) (w : World) :
  let run := handle_with tasks master_copies proxy_factories_decl (Raised e) in
  interval_schedules (run w).1 = interval_schedules (handle_tasks tasks w).1 /\
  periodic_tasks (run w).1 = periodic_tasks (handle_tasks tasks w).1 /\
  safe_master_copies (run w).1 = safe_master_copies w /\
  proxy_factories (run w).1 = proxy_factories w /\
  (lookups_unique tasks w ->
   (handle_tasks tasks w).2 = Returned tt /\
   (run w).2 = Raised e /\
   forall d, d ∈ tasks ->
     key_count (CeleryTaskConfiguration.name d) (periodic_tasks (run w).1) = 1%nat).
Proof.
  cbn zeta. unfold handle_with, bind.
  destruct (keeps_registries_handle_tasks tasks w) as [Hsm Hpf].
  destruct (handle_tasks tasks w) as [w1 [[]|e1]] eqn:Htasks; cbn [fst snd] in *.
  - rewrite handle_addresses_run. cbn [addresses_result fst snd].
    repeat split; try done.
    intros d Hd. cbn [set_stdout periodic_tasks].
    rewrite handle_tasks_run in Htasks by done. injection Htasks as <-.
    by apply handle_tasks_one_record.
  - repeat split; try done; rewrite handle_tasks_run in Htasks by done; discriminate.
Qed.

Lemma C7_tasks_run_without_network_witness :
  (handle_tasks (TASKS false) stale_task_world).2 = Returned tt /\
  (handle_with (TASKS false) MASTER_COPIES PROXY_FACTORIES
     (Raised ConnectivityError) stale_task_world).2 = Raised ConnectivityError /\
  forall d, d ∈ TASKS false ->
    key_count (CeleryTaskConfiguration.name d)
      (periodic_tasks
         (handle_with (TASKS false) MASTER_COPIES PROXY_FACTORIES
            (Raised ConnectivityError) stale_task_world).1) = 1%nat.
Proof.
  apply (C7_tasks_run_without_network (TASKS false) MASTER_COPIES PROXY_FACTORIES
           ConnectivityError stale_task_world).
  unfold lookups_unique, loop_lookups_unique.
  apply (bool_decide_unpack _). vm_compute. exact I.
Defined.

(** C3 as the specification states it fails: on the declarations of the
    command and an empty store, the second of two runs for network 7001
    reports twelve tasks as created, not none. *)
Lemma C3_second_run_creates_counterexample :
  ~ (let w1 := (handle false (Returned "7001") empty_world).1 in
     let run2 := handle false (Returned "7001") in
     interval_schedules (run2 w1).1 = interval_schedules w1 /\
     periodic_tasks (run2 w1).1 = periodic_tasks w1 /\
     safe_master_copies (run2 w1).1 = safe_master_copies w1 /\
     proxy_factories (run2 w1).1 = proxy_factories w1 /\
     created_count (run_output run2 w1) = 0%nat /\
     updated_count (run_output run2 w1) = 0%nat).
Proof.
  cbn zeta. intros (_ & _ & _ & _ & Hcreated & _).
  vm_compute in Hcreated. discriminate.
Qed.

(** C3 (amended): for declarations whose names are distinct and in the
    namespace, when no lookup of the task phase can find several rows, a
    second run of [handle] with the same answer of the Ethereum client has
    the outcome of the first and leaves the four tables as the first run left
    them; it reports every declared task as created, because it has removed
    and created each again, and no task as already there. *)
Theorem C3_second_run_same_store
  (tasks : list CeleryTaskConfiguration.t)
  (master_copies : gmap string (list (string * Z * string)))
  (proxy_factories_decl : gmap string (list (string * Z)))
  (net_version : outcome string) (w : World) :
  lookups_unique tasks w ->
  namespaced tasks ->
  NoDup (map CeleryTaskConfiguration.name tasks) ->
  let run := handle_with tasks master_copies proxy_factories_decl net_version in
  let w1 := (run w).1 in
  (run w1).2 = (run w).2 /\
  interval_schedules (run w1).1 = interval_schedules w1 /\
  periodic_tasks (run w1).1 = periodic_tasks w1 /\
  safe_master_copies (run w1).1 = safe_master_copies w1 /\
  proxy_factories (run w1).1 = proxy_factories w1 /\
  created_count (run_output run w1) = length tasks /\
  updated_count (run_output run w1) = 0%nat.
Proof.
  intros Hu Hns Hnames run w1.
  set (wt := foldl (fun w d => task_step d w) (after_wipe w) tasks).
  assert (run w = addresses_result master_copies proxy_factories_decl net_version wt)
    as Hrun by by apply handle_with_run.
  destruct (addresses_result_tables master_copies proxy_factories_decl net_version wt)
    as [HS1 HT1].
  rewrite <- Hrun in HS1, HT1. fold w1 in HS1, HT1.
  set (wt' := foldl (fun w d => task_step d w) (after_wipe w1) tasks).
  destruct (tasks_phase_again tasks w w1 Hu Hns Hnames HS1 HT1)
    as (Hu1 & HS' & HT' & Hout').
  assert (run w1 = addresses_result master_copies proxy_factories_decl net_version wt')
    as Hrun1 by by apply handle_with_run.
  fold wt wt' in HS', HT', Hout'.
  destruct (addresses_result_tables master_copies proxy_factories_decl net_version wt')
    as [HS2 HT2].
  destruct (tasks_loop_registries tasks (after_wipe w1)) as [Hsm' Hpf'].
  fold wt' in Hsm', Hpf'. cbn [after_wipe safe_master_copies proxy_factories] in Hsm', Hpf'.
  destruct (addresses_result_stdout master_copies proxy_factories_decl net_version wt')
    as (out & Hout & Hc & Hupd & _).
  assert (run_output run w1 =
          ([(SUCCESS, "Removing old tasks"); (SUCCESS, "Old tasks were removed")] ++
           map (fun d => task_message d true) tasks ++ out)%list) as Houtput.
  { apply run_output_app. rewrite Hrun1, Hout, Hout'. cbn [after_wipe stdout].
    by rewrite <- !app_assoc. }
  rewrite Houtput, !created_count_app, !updated_count_app.
  rewrite created_count_created, updated_count_created, Hc, Hupd.
  change (created_count [(SUCCESS, "Removing old tasks");
                         (SUCCESS, "Old tasks were removed")]) with 0%nat.
  change (updated_count [(SUCCESS, "Removing old tasks");
                         (SUCCESS, "Old tasks were removed")]) with 0%nat.
  rewrite Hrun1, HS2, HT2, HS', HT', <- HS1, <- HT1.
  split.
  { subst w1. rewrite Hrun. by destruct net_version. }
  do 2 (split; [done|]).
  split; [|split; [|split; lia]].
  - destruct net_version as [network_id|e];
      cbn [addresses_result fst addresses_world set_stdout safe_master_copies].
    + rewrite Hsm'. subst w1. rewrite Hrun.
      cbn [addresses_result fst addresses_world safe_master_copies].
      apply master_copies_twice.
    + done.
  - destruct net_version as [network_id|e];
      cbn [addresses_result fst addresses_world set_stdout proxy_factories].
    + rewrite Hpf'. subst w1. rewrite Hrun.
      cbn [addresses_result fst addresses_world proxy_factories].
      apply proxy_factories_twice.
    + done.
Qed.

Lemma C3_second_run_same_store_witness :
  let run := handle_with (TASKS false) MASTER_COPIES PROXY_FACTORIES (Returned "7001") in
  let w1 := (run stale_task_world).1 in
  (run w1).2 = (run stale_task_world).2 /\
  interval_schedules (run w1).1 = interval_schedules w1 /\
  periodic_tasks (run w1).1 = periodic_tasks w1 /\
  safe_master_copies (run w1).1 = safe_master_copies w1 /\
  proxy_factories (run w1).1 = proxy_factories w1 /\
  created_count (run_output run w1) = length (TASKS false) /\
  updated_count (run_output run w1) = 0%nat.
Proof.
  apply (C3_second_run_same_store (TASKS false) MASTER_COPIES PROXY_FACTORIES
           (Returned "7001") stale_task_world).
  - unfold lookups_unique, loop_lookups_unique.
    apply (bool_decide_unpack _). vm_compute. exact I.
  - repeat constructor.
  - apply (bool_decide_unpack _). vm_compute. exact I.
Defined.

(** * Further properties of the command *)

(** ** The registries *)

Lemma master_copy_entries_is_Some a decls o :
  is_Some (master_copy_entries a decls o) <->
  is_Some o \/ a ∈ map (fun d : string * Z * string => d.1.1) decls.
Proof.
  revert o. induction decls as [|[[a' b] v] decls IH]; intros o.
  - cbn. rewrite elem_of_nil. tauto.
  - rewrite master_copy_entries_cons, IH. cbn [map fst]. rewrite elem_of_cons.
    destruct (decide (a' = a)) as [->|Hne].
    + split; [intros _; by right; left|intros _; left; eauto].
    + split; [tauto|]. intros [?|[?|?]]; [tauto|congruence|tauto].
Qed.

(** An entry that exists takes the version of the last declaration of its
    address and keeps every other column, also the initial block. *)
Theorem master_copy_existing_entry_takes_last_version
  (pre post : list (string * Z * string)) (a : string) (b : Z) (v : string)
  (w : World) (r : SafeMasterCopyRow.t) :
  safe_master_copies w !! a = Some r ->
  a ∉ map (fun d : string * Z * string => d.1.1) post ->
  exists w',
    _setup_safe_master_copies (pre ++ (a, b, v) :: post) w = (w', Returned tt) /\
    safe_master_copies w' !! a =
      Some {| SafeMasterCopyRow.initial_block_number :=
                SafeMasterCopyRow.initial_block_number r;
              SafeMasterCopyRow.tx_block_number := SafeMasterCopyRow.tx_block_number r;
              SafeMasterCopyRow.version := v;
              SafeMasterCopyRow.l2 := SafeMasterCopyRow.l2 r |}.
Proof.
  intros Hr Hpost. eexists. split; [apply _setup_safe_master_copies_run|].
  cbn [safe_master_copies set_safe_master_copies].
  rewrite master_copies_lookup, Hr, master_copy_entries_app.
  destruct (master_copy_entries_some a pre r) as (r' & -> & Hi & Ht & Hl).
  rewrite master_copy_entries_cons.
  destruct (decide (a = a)) as [_|]; [|done].
  rewrite master_copy_entries_other by done.
  cbn [master_copy_entry]. unfold with_version. by rewrite Hi, Ht, Hl.
Qed.

Lemma master_copy_existing_entry_takes_last_version_witness :
  exists w',
    _setup_safe_master_copies
      ([("0xd9Db270c1B5E3Bd161E8c8503c55cEABeE709552", 9242, "1.3.0")] ++
       ("0xd9Db270c1B5E3Bd161E8c8503c55cEABeE709552", 9300, "1.4.1") :: [])
      stale_master_copy_world = (w', Returned tt) /\
    safe_master_copies w' !! "0xd9Db270c1B5E3Bd161E8c8503c55cEABeE709552" =
      Some {| SafeMasterCopyRow.initial_block_number := 9000;
              SafeMasterCopyRow.tx_block_number := 9100;
              SafeMasterCopyRow.version := "1.4.1";
              SafeMasterCopyRow.l2 := false |}.
Proof.
  apply (master_copy_existing_entry_takes_last_version
           [("0xd9Db270c1B5E3Bd161E8c8503c55cEABeE709552", 9242, "1.3.0")] []
           "0xd9Db270c1B5E3Bd161E8c8503c55cEABeE709552" 9300 "1.4.1"
           stale_master_copy_world
           {| SafeMasterCopyRow.initial_block_number := 9000;
              SafeMasterCopyRow.tx_block_number := 9100;
              SafeMasterCopyRow.version := "1.2.0";
              SafeMasterCopyRow.l2 := false |}).
  - vm_compute. reflexivity.
  - cbn. apply not_elem_of_nil.
Defined.

(** An address without entry that is declared once gets the defaults of its
    declaration: both blocks are the declared initial block, the version is
    the declared one and [l2] says whether the version ends with [+L2]. *)
Theorem master_copy_created_with_defaults
  (pre post : list (string * Z * string)) (a : string) (b : Z) (v : string) (w : World) :
  safe_master_copies w !! a = None ->
  a ∉ map (fun d : string * Z * string => d.1.1) pre ->
  a ∉ map (fun d : string * Z * string => d.1.1) post ->
  exists w',
    _setup_safe_master_copies (pre ++ (a, b, v) :: post) w = (w', Returned tt) /\
    safe_master_copies w' !! a =
      Some {| SafeMasterCopyRow.initial_block_number := b;
              SafeMasterCopyRow.tx_block_number := b;
              SafeMasterCopyRow.version := v;
              SafeMasterCopyRow.l2 := endswith v "+L2" |}.
Proof.
  intros Hr Hpre Hpost. eexists. split; [apply _setup_safe_master_copies_run|].
  cbn [safe_master_copies set_safe_master_copies].
  rewrite master_copies_lookup, Hr, master_copy_entries_app.
  rewrite (master_copy_entries_other a pre None Hpre), master_copy_entries_cons.
  destruct (decide (a = a)) as [_|]; [|done].
  by rewrite master_copy_entries_other by done.
Qed.

Lemma master_copy_created_with_defaults_witness :
  exists w',
    _setup_safe_master_copies
      ([("0xd9Db270c1B5E3Bd161E8c8503c55cEABeE709552", 9242, "1.3.0")] ++
       ("0x3E5c63644E683549055b9Be8653de26E0B4CD36E", 9239, "1.3.0+L2") :: [])
      empty_world = (w', Returned tt) /\
    safe_master_copies w' !! "0x3E5c63644E683549055b9Be8653de26E0B4CD36E" =
      Some {| SafeMasterCopyRow.initial_block_number := 9239;
              SafeMasterCopyRow.tx_block_number := 9239;
              SafeMasterCopyRow.version := "1.3.0+L2";
              SafeMasterCopyRow.l2 := endswith "1.3.0+L2" "+L2" |}.
Proof.
  apply (master_copy_created_with_defaults
           [("0xd9Db270c1B5E3Bd161E8c8503c55cEABeE709552", 9242, "1.3.0")] []
           "0x3E5c63644E683549055b9Be8653de26E0B4CD36E" 9239 "1.3.0+L2" empty_world).
  - vm_compute. reflexivity.
  - cbn. rewrite list_elem_of_singleton. discriminate.
  - cbn. apply not_elem_of_nil.
Defined.

(** [_setup_safe_master_copies] always returns; it touches nothing but the
    master-copy registry, deletes no entry, leaves the entries of undeclared
    addresses as they are, and afterwards exactly the addresses that had an
    entry or are declared have one. *)
Theorem master_copies_only_added
  (decls : list (string * Z * string)) (w : World) :
  exists w',
    _setup_safe_master_copies decls w = (w', Returned tt) /\
    interval_schedules w' = interval_schedules w /\
    periodic_tasks w' = periodic_tasks w /\
    proxy_factories w' = proxy_factories w /\
    stdout w' = stdout w /\
    (forall a, a ∉ map (fun d : string * Z * string => d.1.1) decls ->
       safe_master_copies w' !! a = safe_master_copies w !! a) /\
    (forall a, is_Some (safe_master_copies w' !! a) <->
       is_Some (safe_master_copies w !! a) \/
       a ∈ map (fun d : string * Z * string => d.1.1) decls).
Proof.
  eexists. split; [apply _setup_safe_master_copies_run|].
  cbn [safe_master_copies set_safe_master_copies interval_schedules periodic_tasks
       proxy_factories stdout].
  do 4 (split; [done|]). split.
  - intros a Ha. rewrite master_copies_lookup. by apply master_copy_entries_other.
  - intros a. rewrite master_copies_lookup. apply master_copy_entries_is_Some.
Qed.

Lemma master_copies_only_added_witness :
  exists w',
    _setup_safe_master_copies
      [("0x3E5c63644E683549055b9Be8653de26E0B4CD36E", 9239, "1.3.0+L2")]
      stale_master_copy_world = (w', Returned tt) /\
    safe_master_copies w' !! "0xd9Db270c1B5E3Bd161E8c8503c55cEABeE709552" =
      safe_master_copies stale_master_copy_world !!
        "0xd9Db270c1B5E3Bd161E8c8503c55cEABeE709552".
Proof.
  destruct (master_copies_only_added
              [("0x3E5c63644E683549055b9Be8653de26E0B4CD36E", 9239, "1.3.0+L2")]
              stale_master_copy_world) as (w' & Hrun & _ & _ & _ & _ & Hother & _).
  exists w'. split; [exact Hrun|]. apply Hother.
  cbn. rewrite list_elem_of_singleton. discriminate.
Defined.

Lemma proxy_factory_entries_cons a a' b decls o :
  proxy_factory_entries a ((a', b) :: decls) o =
  proxy_factory_entries a decls
    (if decide (a' = a)
     then Some (default {| ProxyFactory.initial_block_number := b;
                           ProxyFactory.tx_block_number := b |} o)
     else o).
Proof. done. Qed.

Lemma proxy_factory_entries_other a decls o :
  a ∉ map fst decls -> proxy_factory_entries a decls o = o.
Proof.
  revert o. induction decls as [|[a' b] decls IH]; intros o Ha; [done|].
  cbn [map fst] in Ha. apply not_elem_of_cons in Ha as [Hne Ha].
  rewrite proxy_factory_entries_cons.
  destruct (decide (a' = a)); [congruence|]. by apply IH.
Qed.

Lemma proxy_factory_entries_is_Some a decls o :
  is_Some (proxy_factory_entries a decls o) <-> is_Some o \/ a ∈ map fst decls.
Proof.
  revert o. induction decls as [|[a' b] decls IH]; intros o.
  - cbn. rewrite elem_of_nil. tauto.
  - rewrite proxy_factory_entries_cons, IH. cbn [map fst]. rewrite elem_of_cons.
    destruct (decide (a' = a)) as [->|Hne].
    + split; [intros _; by right; left|intros _; left; eauto].
    + split; [tauto|]. intros [?|[?|?]]; [tauto|congruence|tauto].
Qed.

(** [_setup_safe_proxy_factories] always returns; it touches nothing but the
    proxy-factory registry; exactly the addresses that had an entry or are
    declared have one afterwards; undeclared addresses keep what they had;
    and an address without entry gets both blocks of its first declaration,
    later declarations of the address being ignored. *)
Theorem proxy_factories_first_declaration_wins
  (decls : list (string * Z)) (w : World) :
  exists w',
    _setup_safe_proxy_factories decls w = (w', Returned tt) /\
    interval_schedules w' = interval_schedules w /\
    periodic_tasks w' = periodic_tasks w /\
    safe_master_copies w' = safe_master_copies w /\
    stdout w' = stdout w /\
    (forall a, a ∉ map fst decls -> proxy_factories w' !! a = proxy_factories w !! a) /\
    (forall a, is_Some (proxy_factories w' !! a) <->
       is_Some (proxy_factories w !! a) \/ a ∈ map fst decls) /\
    (forall pre a b post,
       proxy_factories w !! a = None ->
       decls = (pre ++ (a, b) :: post)%list ->
       a ∉ map fst pre ->
       proxy_factories w' !! a =
         Some {| ProxyFactory.initial_block_number := b;
                 ProxyFactory.tx_block_number := b |}).
Proof.
  eexists. split; [apply _setup_safe_proxy_factories_run|].
  cbn [proxy_factories set_proxy_factories interval_schedules periodic_tasks
       safe_master_copies stdout].
  do 4 (split; [done|]). split; [|split].
  - intros a Ha. rewrite proxy_factories_lookup. by apply proxy_factory_entries_other.
  - intros a. rewrite proxy_factories_lookup. apply proxy_factory_entries_is_Some.
  - intros pre a b post Hnone -> Hpre.
    rewrite proxy_factories_lookup, Hnone.
    unfold proxy_factory_entries. rewrite foldl_app.
    fold (proxy_factory_entries a pre None).
    rewrite (proxy_factory_entries_other a pre None Hpre).
    fold (proxy_factory_entries a ((a, b) :: post) None).
    rewrite proxy_factory_entries_cons.
    destruct (decide (a = a)) as [_|]; [|done].
    apply proxy_factory_entries_some.
Qed.

Lemma proxy_factories_first_declaration_wins_witness :
  exists w',
    _setup_safe_proxy_factories
      [("0xa6B71E26C5e0845f74c812102Ca7114b6a896AB2", 9223);
       ("0xa6B71E26C5e0845f74c812102Ca7114b6a896AB2", 9500)] empty_world
    = (w', Returned tt) /\
    proxy_factories w' !! "0xa6B71E26C5e0845f74c812102Ca7114b6a896AB2" =
      Some {| ProxyFactory.initial_block_number := 9223;
              ProxyFactory.tx_block_number := 9223 |}.
Proof.
  destruct (proxy_factories_first_declaration_wins
              [("0xa6B71E26C5e0845f74c812102Ca7114b6a896AB2", 9223);
               ("0xa6B71E26C5e0845f74c812102Ca7114b6a896AB2", 9500)] empty_world)
    as (w' & Hrun & _ & _ & _ & _ & _ & _ & Hfirst).
  exists w'. split; [exact Hrun|].
  apply (Hfirst [] _ _ [("0xa6B71E26C5e0845f74c812102Ca7114b6a896AB2", 9500)]).
  - vm_compute. reflexivity.
  - reflexivity.
  - cbn. apply not_elem_of_nil.
Defined.

(** Both registry loops can be run again: a second run with the same
    declarations, whatever they are, changes nothing. *)
Theorem registry_setup_run_again
  (master_copies_decl : list (string * Z * string))
  (proxy_factories_decl : list (string * Z)) (w : World) :
  _setup_safe_master_copies master_copies_decl
    (_setup_safe_master_copies master_copies_decl w).1 =
    ((_setup_safe_master_copies master_copies_decl w).1, Returned tt) /\
  _setup_safe_proxy_factories proxy_factories_decl
    (_setup_safe_proxy_factories proxy_factories_decl w).1 =
    ((_setup_safe_proxy_factories proxy_factories_decl w).1, Returned tt).
Proof.
  split.
  - rewrite !_setup_safe_master_copies_run. cbn [fst safe_master_copies
      set_safe_master_copies]. rewrite master_copies_twice. by destruct w.
  - rewrite !_setup_safe_proxy_factories_run. cbn [fst proxy_factories
      set_proxy_factories]. rewrite proxy_factories_twice. by destruct w.
Qed.

(** ** The L2 flag *)

Lemma length_append s1 s2 :
  String.length (s1 +:+ s2) = (String.length s1 + String.length s2)%nat.
Proof.
  induction s1 as [|c s1 IH]; [done|].
  change (S (String.length (s1 +:+ s2)) = S (String.length s1 + String.length s2)).
  by rewrite IH.
Qed.

Lemma substring_full s : String.substring 0 (String.length s) s = s.
Proof.
  induction s as [|c s IH]; [done|].
  change (String c (String.substring 0 (String.length s) s) = String c s).
  by rewrite IH.
Qed.

Lemma substring_append_r p s :
  String.substring (String.length p) (String.length s) (p +:+ s) = s.
Proof. induction p as [|c p IH]; [apply substring_full|]. exact IH. Qed.

Lemma substring_split s k :
  (k <= String.length s)%nat ->
  s = String.substring 0 k s +:+ String.substring k (String.length s - k) s.
Proof.
  revert k. induction s as [|c s IH]; intros k Hk.
  - cbn in Hk. assert (k = 0%nat) as -> by lia. done.
  - destruct k as [|k].
    + cbn [String.substring]. rewrite Nat.sub_0_r.
      change (String.length (String c s)) with (S (String.length s)).
      cbn [String.substring]. by rewrite substring_full.
    + cbn in Hk. cbn [String.substring String.length Nat.sub].
      change (String c (String.substring 0 k s) +:+ ?x)
        with (String c (String.substring 0 k s +:+ x)).
      f_equal. apply IH. lia.
Qed.

(** [s.endswith(suffix)] holds exactly when [s] is some string followed by
    [suffix]. *)
Lemma endswith_spec s suffix :
  endswith s suffix = true <-> exists p, s = p +:+ suffix.
Proof.
  unfold endswith. rewrite andb_true_iff, Nat.leb_le, String.eqb_eq. split.
  - remember (String.length suffix) as m eqn:Hm. intros [Hle Hsub].
    exists (String.substring 0 (String.length s - m) s).
    rewrite <- Hsub.
    pose proof (substring_split s (String.length s - m)) as Hsplit.
    replace (String.length s - (String.length s - m))%nat with m in Hsplit by lia.
    apply Hsplit. lia.
  - intros [p ->]. rewrite length_append. split; [lia|].
    replace (String.length p + String.length suffix - String.length suffix)%nat
      with (String.length p) by lia.
    apply substring_append_r.
Qed.

(** The entry an iteration of [_setup_safe_master_copies] creates is flagged
    as L2 exactly when the declared version is some string followed by
    [+L2]. *)
Theorem master_copy_l2_flag
  (address : string) (initial_block_number : Z) (version : string) (w : World) :
  safe_master_copies w !! address = None ->
  exists w' r,
    setup_safe_master_copy (address, initial_block_number, version) w =
      (w', Returned tt) /\
    safe_master_copies w' !! address = Some r /\
    (SafeMasterCopyRow.l2 r = true <-> exists p, version = p +:+ "+L2").
Proof.
  intros Hnone. eexists _, _. split; [apply setup_safe_master_copy_run|].
  cbn [safe_master_copies set_safe_master_copies]. rewrite lookup_insert_eq, Hnone.
  split; [done|]. cbn. apply endswith_spec.
Qed.

Lemma master_copy_l2_flag_witness :
  exists w' r,
    setup_safe_master_copy
      ("0x3E5c63644E683549055b9Be8653de26E0B4CD36E", 9239, "1.3.0+L2") empty_world =
      (w', Returned tt) /\
    safe_master_copies w' !! "0x3E5c63644E683549055b9Be8653de26E0B4CD36E" = Some r /\
    (SafeMasterCopyRow.l2 r = true <-> exists p, "1.3.0+L2" = p +:+ "+L2").
Proof.
  apply (master_copy_l2_flag "0x3E5c63644E683549055b9Be8653de26E0B4CD36E" 9239
           "1.3.0+L2" empty_world).
  reflexivity.
Defined.

(** ** [create_task] *)

(** Whether it returns or raises, [create_task] deletes nothing: the schedule
    table only gets at most one row at its end, the task table at most one
    record at its end, every task record stays at its position with its key,
    a record of another key is not changed, and the registries and the
    output are as they were. *)
Theorem create_task_changes_one_record (d : CeleryTaskConfiguration.t) (w : World) :
  let w' := (create_task d w).1 in
  interval_schedules w `prefix_of` interval_schedules w' /\
  (length (interval_schedules w') <= S (length (interval_schedules w)))%nat /\
  (length (periodic_tasks w) <= length (periodic_tasks w'))%nat /\
  (length (periodic_tasks w') <= S (length (periodic_tasks w)))%nat /\
  (forall i r, periodic_tasks w !! i = Some r ->
     exists r', periodic_tasks w' !! i = Some r' /\
       PeriodicTask.task r' = PeriodicTask.task r /\
       (PeriodicTask.task r <> CeleryTaskConfiguration.name d -> r' = r)) /\
  safe_master_copies w' = safe_master_copies w /\
  proxy_factories w' = proxy_factories w /\
  stdout w' = stdout w.
Proof.
  cbn zeta. unfold create_task, bind, IntervalSchedule_get_or_create,
    PeriodicTask_get_or_create.
  destruct (objects_get _ (interval_schedules w)) as [|s r0|] eqn:HgetS; cbn.
  3:{ repeat split; try done; try lia. intros i r Hi. by exists r. }
  all: destruct (objects_get (task_matches (CeleryTaskConfiguration.name d))
                   (periodic_tasks w)) as [|j t0|] eqn:HgetT; cbn.
  all: rewrite ?length_app, ?length_insert; cbn [length].
  all: split; [done || by apply prefix_app_r|].
  all: do 3 (split; [lia|]).
  all: split; [|done].
  all: intros i r Hi.
  1,4: exists r; split; [|done]; by rewrite lookup_app_l by by eapply lookup_lt_Some.
  2,4: by exists r.
  all: apply objects_get_found in HgetT as (Hj & Hk%task_matches_eq & _).
  all: destruct (decide (i = j)) as [->|Hne];
    [eexists; rewrite list_lookup_insert_eq by (by eapply lookup_lt_Some);
     split; [done|]; cbn; split; congruence
    |exists r; by rewrite list_lookup_insert_ne].
Qed.

Lemma create_task_changes_one_record_witness :
  periodic_tasks
    (create_task
       (mk_task "safe_transaction_service.history.tasks.check_reorgs_task"
          "Check Reorgs" 3 MINUTES true)
       stale_task_world).1 !! 1%nat =
  Some {| PeriodicTask.task := "celery.backend_cleanup";
          PeriodicTask.name := "Backend cleanup";
          PeriodicTask.interval := 0;
          PeriodicTask.enabled := true |}.
Proof.
  destruct (create_task_changes_one_record
              (mk_task "safe_transaction_service.history.tasks.check_reorgs_task"
                 "Check Reorgs" 3 MINUTES true)
              stale_task_world) as (_ & _ & _ & _ & Hkept & _).
  destruct (Hkept 1%nat
              {| PeriodicTask.task := "celery.backend_cleanup";
                 PeriodicTask.name := "Backend cleanup";
                 PeriodicTask.interval := 0;
                 PeriodicTask.enabled := true |} eq_refl) as (r' & Hr' & _ & Hsame).
  rewrite Hr', Hsame; [reflexivity|discriminate].
Defined.

(** ** The task phase *)

Lemma for_each_app {A} (l1 l2 : list A) body w :
  for_each (l1 ++ l2) body w = bind (for_each l1 body) (fun _ => for_each l2 body) w.
Proof.
  revert w. induction l1 as [|x l1 IH]; intros w; [done|].
  cbn [app for_each]. unfold bind.
  destruct (body x w) as [w1 [[]|e]]; [|done]. rewrite IH. reflexivity.
Qed.

(** When a lookup of [handle_task] finds several rows, the schedule the
    first lookup may have created stays, and nothing else is written. *)
Lemma handle_task_raises d w :
  ~ ((schedule_count (declared_schedule d) (interval_schedules w) <= 1)%nat /\
     (key_count (CeleryTaskConfiguration.name d) (periodic_tasks w) <= 1)%nat) ->
  handle_task d w =
  (set_interval_schedules
     (with_schedule (declared_schedule d) (interval_schedules w)) w,
   Raised MultipleObjectsReturned).
Proof.
  intros Hnot.
  unfold handle_task, create_task, bind, with_schedule,
    IntervalSchedule_get_or_create, PeriodicTask_get_or_create.
  change (interval_matches (CeleryTaskConfiguration.interval d)
            (CeleryTaskConfiguration.period d))
    with (schedule_matches (declared_schedule d)).
  destruct (objects_get (schedule_matches (declared_schedule d)) (interval_schedules w))
    as [|s r|] eqn:HgetS; cbn [set_interval_schedules periodic_tasks];
    [| |by destruct w];
  (destruct (objects_get (task_matches (CeleryTaskConfiguration.name d)) (periodic_tasks w))
    as [|i r0|] eqn:HgetT; [| |by destruct w]);
  destruct Hnot; (split; [unfold schedule_count|unfold key_count]);
    apply objects_get_unique; congruence.
Qed.

(** The record of a declaration whose name is not declared again. *)
Lemma tasks_loop_head_row d ds w :
  loop_lookups_unique (d :: ds) w ->
  CeleryTaskConfiguration.name d ∉ map CeleryTaskConfiguration.name ds ->
  let w' := foldl (fun w d => task_step d w) w (d :: ds) in
  let s := schedule_position (declared_schedule d) (interval_schedules w') in
  interval_schedules w' !! s = Some (declared_schedule d) /\
  exists pk, periodic_tasks w' !! pk = Some (declared_row d s).
Proof.
  intros Hu Hd. apply Forall_cons in Hu as [[HS0 HT0] Hu].
  cbn zeta. rewrite tasks_loop_cons.
  set (s0 := schedule_position (declared_schedule d) (interval_schedules w)).
  assert (interval_schedules (task_step d w) !! s0 = Some (declared_schedule d)) as Hs0.
  { rewrite task_step_schedules. apply with_schedule_lookup.
    by apply objects_get_unique. }
  rewrite (schedule_position_stable _ (interval_schedules (task_step d w)) _ s0);
    [| |apply tasks_loop_prefix|done].
  2:{ apply tasks_loop_schedule_count_le. rewrite task_step_schedules.
      by apply schedule_count_with_schedule_le. }
  split.
  { eapply prefix_lookup_Some; [exact Hs0|apply tasks_loop_prefix]. }
  destruct (tasks_loop_kept ds (task_step d w)
              (task_position (CeleryTaskConfiguration.name d) (periodic_tasks w))
              (declared_row d s0)) as (r' & Hr' & _ & Hsame).
  { rewrite task_step_tasks.
    apply (with_task_lookup (declared_row d s0)).
    by apply objects_get_unique. }
  eexists. rewrite Hr', Hsame; done.
Qed.

(** A run of [handle] raises [MultipleObjectsReturned] exactly when a lookup
    of the task phase can find several rows.  Otherwise it returns when the
    Ethereum client answers, and raises what the client raises: the reads of
    [MASTER_COPIES] and [PROXY_FACTORIES] are guarded by the membership
    tests and never raise [KeyError]. *)
Theorem handle_outcome
  (tasks : list CeleryTaskConfiguration.t)
  (master_copies : gmap string (list (string * Z * string)))
  (proxy_factories_decl : gmap string (list (string * Z)))
  (net_version : outcome string) (w : World) :
  (handle_with tasks master_copies proxy_factories_decl net_version w).2 =
  if decide (lookups_unique tasks w)
  then match net_version with
       | Returned _ => Returned tt
       | Raised e => Raised e
       end
  else Raised MultipleObjectsReturned.
Proof.
  destruct (decide _) as [Hu|Hnu].
  - rewrite handle_with_run by done. by destruct net_version.
  - by apply handle_with_raises.
Qed.

(** [handle] is not atomic.  When the declarations [pre] go through and a
    lookup for the next declaration [d] finds several rows, the run raises
    [MultipleObjectsReturned] and leaves the world of the loop over [pre],
    with the schedule of [d] when its lookup has created it: the old records
    of the namespace are gone, a name of the namespace that [pre] does not
    declare has no record, the Ethereum client is not asked and both
    registries are as they were. *)
Theorem handle_aborts_at_first_ambiguous_lookup
  (pre : list CeleryTaskConfiguration.t) (d : CeleryTaskConfiguration.t)
  (post : list CeleryTaskConfiguration.t)
  (master_copies : gmap string (list (string * Z * string)))
  (proxy_factories_decl : gmap string (list (string * Z)))
  (net_version : outcome string) (w : World) :
  loop_lookups_unique pre (after_wipe w) ->
  ~ ((schedule_count (declared_schedule d)
        (interval_schedules (foldl (fun w d => task_step d w) (after_wipe w) pre)) <= 1)%nat /\
     (key_count (CeleryTaskConfiguration.name d)
        (periodic_tasks (foldl (fun w d => task_step d w) (after_wipe w) pre)) <= 1)%nat) ->
  let w1 := foldl (fun w d => task_step d w) (after_wipe w) pre in
  let w2 := set_interval_schedules
              (with_schedule (declared_schedule d) (interval_schedules w1)) w1 in
  handle_with (pre ++ d :: post) master_copies proxy_factories_decl net_version w =
    (w2, Raised MultipleObjectsReturned) /\
  (forall key, startswith NAMESPACE key = true ->
     key ∉ map CeleryTaskConfiguration.name pre ->
     key_count key (periodic_tasks w2) = 0%nat) /\
  safe_master_copies w2 = safe_master_copies w /\
  proxy_factories w2 = proxy_factories w.
Proof.
  intros Hpre Hnot w1 w2. split; [|split].
  - unfold handle_with, bind. rewrite handle_tasks_unfold, for_each_app.
    unfold bind. rewrite (tasks_loop_run pre (after_wipe w) Hpre).
    cbn [for_each]. unfold bind. fold w1.
    rewrite (handle_task_raises d w1 Hnot). reflexivity.
  - intros key Hns Hkey. subst w2 w1. cbn [set_interval_schedules periodic_tasks].
    rewrite tasks_loop_key_count, decide_False by done.
    by apply key_count_wipe_namespace.
  - subst w2 w1. cbn [set_interval_schedules safe_master_copies proxy_factories].
    apply (tasks_loop_registries pre (after_wipe w)).
Qed.

Lemma handle_aborts_at_first_ambiguous_lookup_witness :
  (handle false (Returned "7001") duplicate_schedule_world).2 =
    Raised MultipleObjectsReturned /\
  key_count "safe_transaction_service.tokens.tasks.fix_pool_tokens_task"
    (periodic_tasks (handle false (Returned "7001") duplicate_schedule_world).1) = 0%nat /\
  safe_master_copies (handle false (Returned "7001") duplicate_schedule_world).1 = ∅.
Proof.
  destruct (handle_aborts_at_first_ambiguous_lookup
              (take 2 (TASKS false))
              (mk_task "safe_transaction_service.history.tasks.index_internal_txs_task"
                 "Index Internal Txs" 13 SECONDS true)
              (drop 3 (TASKS false))
              MASTER_COPIES PROXY_FACTORIES (Returned "7001") duplicate_schedule_world)
    as (Hrun & Hkeys & Hsm & _).
  - unfold loop_lookups_unique. apply (bool_decide_unpack _). vm_compute. exact I.
  - intros Hle. apply (bool_decide_pack _) in Hle. vm_compute in Hle. exact Hle.
  - change (handle false (Returned "7001") duplicate_schedule_world)
      with (handle_with
              (take 2 (TASKS false) ++
               mk_task "safe_transaction_service.history.tasks.index_internal_txs_task"
                 "Index Internal Txs" 13 SECONDS true :: drop 3 (TASKS false))
              MASTER_COPIES PROXY_FACTORIES (Returned "7001") duplicate_schedule_world).
    rewrite Hrun. cbn [fst snd]. split; [reflexivity|]. split.
    + apply Hkeys; [reflexivity|].
      apply (bool_decide_unpack _). vm_compute. exact I.
    + exact Hsm.
Defined.

(** ** The schedule table *)

Lemma appends_schedules_keep {A} D (c : Cmd A) :
  (forall w, interval_schedules (c w).1 = interval_schedules w) ->
  appends_schedules D c.
Proof. intros Hc w. rewrite Hc. split; [done|]. intros r Hr. by left. Qed.

Lemma appends_schedules_mono {A} D D' (c : Cmd A) :
  D ⊆ D' -> appends_schedules D c -> appends_schedules D' c.
Proof.
  intros HD Hc w. destruct (Hc w) as [Hp Hin]. split; [done|].
  intros r Hr. destruct (Hin r Hr) as [?|?]; [by left|right; by apply HD].
Qed.

Lemma appends_schedules_bind {A B} D (c : Cmd A) (k : A -> Cmd B) :
  appends_schedules D c -> (forall a, appends_schedules D (k a)) ->
  appends_schedules D (bind c k).
Proof.
  intros Hc Hk w. unfold bind. destruct (Hc w) as [Hp Hin].
  destruct (c w) as [w1 [a|e]]; cbn [fst] in *; [|done].
  destruct (Hk a w1) as [Hp' Hin']. split; [by etrans|].
  intros r Hr. destruct (Hin' r Hr) as [?|?]; [by apply Hin|by right].
Qed.

Lemma appends_schedules_for_each {A} D (l : list A) body :
  (forall x, x ∈ l -> appends_schedules D (body x)) ->
  appends_schedules D (for_each l body).
Proof.
  induction l as [|x l IH]; intros Hbody; [by apply appends_schedules_keep|].
  cbn [for_each]. apply appends_schedules_bind.
  - apply Hbody. by left.
  - intros _. apply IH. intros y Hy. apply Hbody. by right.
Qed.

Lemma appends_schedules_handle_task d :
  appends_schedules [declared_schedule d] (handle_task d).
Proof.
  unfold handle_task, create_task.
  apply appends_schedules_bind; [apply appends_schedules_bind|].
  - intros w. unfold IntervalSchedule_get_or_create.
    destruct (objects_get _ _); cbn; (split; [done || by apply prefix_app_r|]);
      intros x; rewrite ?elem_of_app; tauto.
  - intros [[s r] c]. apply appends_schedules_bind.
    + apply appends_schedules_keep. intros w. unfold PeriodicTask_get_or_create.
      by destruct (objects_get _ _).
    + intros [[pk t] created]. apply appends_schedules_keep. intros w.
      by destruct created.
  - intros [[pk t] created]. apply appends_schedules_keep. intros w.
    by destruct created.
Qed.

Lemma appends_schedules_handle_tasks tasks :
  appends_schedules (map declared_schedule tasks) (handle_tasks tasks).
Proof.
  unfold handle_tasks.
  repeat (apply appends_schedules_bind; [by apply appends_schedules_keep|intros _]).
  apply appends_schedules_for_each. intros d Hd.
  eapply appends_schedules_mono; [|apply appends_schedules_handle_task].
  intros r ->%list_elem_of_singleton. by apply list_elem_of_fmap_2.
Qed.

Lemma schedule_count_prefix r S S' :
  S `prefix_of` S' -> (schedule_count r S <= schedule_count r S')%nat.
Proof.
  intros [k ->]. unfold schedule_count. rewrite List.filter_app, length_app. lia.
Qed.

(** Whether it returns or raises, [handle] deletes and changes no schedule:
    the schedule table it leaves starts with the table it found, and every
    row it has added holds the interval and period of a declaration. *)
Theorem handle_appends_schedules
  (tasks : list CeleryTaskConfiguration.t)
  (master_copies : gmap string (list (string * Z * string)))
  (proxy_factories_decl : gmap string (list (string * Z)))
  (net_version : outcome string) :
  appends_schedules (map declared_schedule tasks)
    (handle_with tasks master_copies proxy_factories_decl net_version).
Proof.
  unfold handle_with. apply appends_schedules_bind.
  - apply appends_schedules_handle_tasks.
  - intros _. apply appends_schedules_keep. intros w.
    rewrite handle_addresses_run. apply addresses_result_tables.
Qed.

Lemma handle_appends_schedules_witness :
  interval_schedules duplicate_schedule_world `prefix_of`
  interval_schedules (handle false (Returned "7001") duplicate_schedule_world).1.
Proof.
  destruct (handle_appends_schedules (TASKS false) MASTER_COPIES PROXY_FACTORIES
              (Returned "7001") duplicate_schedule_world) as [Hprefix _].
  exact Hprefix.
Defined.

(** [handle] never repairs a schedule table in which a declared interval is
    stored more than once: the run raises [MultipleObjectsReturned], the
    interval is still stored more than once afterwards, and so the next run
    raises again. *)
Theorem duplicate_schedule_is_never_repaired
  (tasks : list CeleryTaskConfiguration.t)
  (master_copies : gmap string (list (string * Z * string)))
  (proxy_factories_decl : gmap string (list (string * Z)))
  (net_version : outcome string) (d : CeleryTaskConfiguration.t) (w : World) :
  d ∈ tasks ->
  (1 < schedule_count (declared_schedule d) (interval_schedules w))%nat ->
  let run := handle_with tasks master_copies proxy_factories_decl net_version in
  (run w).2 = Raised MultipleObjectsReturned /\
  (1 < schedule_count (declared_schedule d) (interval_schedules (run w).1))%nat /\
  (run (run w).1).2 = Raised MultipleObjectsReturned.
Proof.
  intros Hd Hdup run.
  assert (forall w0,
            (1 < schedule_count (declared_schedule d) (interval_schedules w0))%nat ->
            ~ lookups_unique tasks w0) as Hambiguous.
  { intros w0 Hw0 Hu. unfold lookups_unique, loop_lookups_unique in Hu.
    rewrite Forall_forall in Hu. destruct (Hu d Hd) as [HS _].
    cbn [after_wipe interval_schedules] in HS. lia. }
  assert ((1 < schedule_count (declared_schedule d) (interval_schedules (run w).1))%nat)
    as Hdup'.
  { subst run. unfold handle_with, bind.
    destruct (appends_schedules_handle_tasks tasks w) as [Hprefix _].
    pose proof (proj1 (handle_tasks_returns tasks w)) as Hret.
    destruct (handle_tasks tasks w) as [w1 [[]|e]]; cbn [fst snd] in *.
    - destruct (Hambiguous w Hdup). by apply Hret.
    - pose proof (schedule_count_prefix (declared_schedule d) _ _ Hprefix). lia. }
  split; [|split; [done|]]; apply handle_with_raises; by apply Hambiguous.
Qed.

Lemma duplicate_schedule_is_never_repaired_witness :
  let run := handle false (Returned "7001") in
  (run duplicate_schedule_world).2 = Raised MultipleObjectsReturned /\
  (1 < schedule_count
         {| IntervalSchedule.every := 13; IntervalSchedule.period := SECONDS |}
         (interval_schedules (run duplicate_schedule_world).1))%nat /\
  (run (run duplicate_schedule_world).1).2 = Raised MultipleObjectsReturned.
Proof.
  apply (duplicate_schedule_is_never_repaired (TASKS false) MASTER_COPIES PROXY_FACTORIES
           (Returned "7001")
           (mk_task "safe_transaction_service.history.tasks.index_internal_txs_task"
              "Index Internal Txs" 13 SECONDS true)
           duplicate_schedule_world).
  - unfold TASKS. do 2 apply list_elem_of_further. apply list_elem_of_here.
  - vm_compute. lia.
Defined.

(** ** The task table after a run *)

Lemma handle_tasks_fresh tasks w :
  namespaced tasks ->
  NoDup (map CeleryTaskConfiguration.name tasks) ->
  Forall (fun d => (schedule_count (declared_schedule d) (interval_schedules w) <= 1)%nat)
    tasks ->
  let w' := foldl (fun w d => task_step d w) (after_wipe w) tasks in
  handle_tasks tasks w = (w', Returned tt) /\
  periodic_tasks w' =
    (wipe (periodic_tasks w) ++
     map (fun d => declared_row d
                     (schedule_position (declared_schedule d) (interval_schedules w')))
       tasks)%list /\
  stdout w' = (stdout (after_wipe w) ++ map (fun d => task_message d true) tasks)%list.
Proof.
  intros Hns Hnames HS. cbn zeta. split.
  { apply handle_tasks_run. by apply namespaced_lookups_unique. }
  apply (tasks_loop_fresh tasks (after_wipe w)); [done..|].
  unfold namespaced in Hns. rewrite Forall_forall in Hns |- *. intros d Hd.
  cbn [after_wipe periodic_tasks]. apply key_count_wipe_namespace. by apply Hns.
Qed.

(** For declarations with distinct names of the namespace the task phase
    rebuilds the namespace on every run: when no declared interval is stored
    twice it returns, the task table is what was stored outside the
    namespace followed by one record for every declaration, in the order of
    the declarations, and every task is reported as created. *)
Theorem handle_tasks_rebuilds_namespace
  (tasks : list CeleryTaskConfiguration.t) (w : World) :
  namespaced tasks ->
  NoDup (map CeleryTaskConfiguration.name tasks) ->
  Forall (fun d => (schedule_count (declared_schedule d) (interval_schedules w) <= 1)%nat)
    tasks ->
  exists w',
    handle_tasks tasks w = (w', Returned tt) /\
    periodic_tasks w' =
      (wipe (periodic_tasks w) ++
       map (fun d => declared_row d
                       (schedule_position (declared_schedule d) (interval_schedules w')))
         tasks)%list /\
    stdout w' =
      (stdout w ++
       [(SUCCESS, "Removing old tasks"); (SUCCESS, "Old tasks were removed")] ++
       map (fun d => (SUCCESS, "Created Periodic Task " +:+ CeleryTaskConfiguration.name d))
         tasks)%list.
Proof.
  intros Hns Hnames HS.
  destruct (handle_tasks_fresh tasks w Hns Hnames HS) as (Hrun & HT & Hout).
  eexists. split; [exact Hrun|]. split; [exact HT|].
  rewrite Hout. cbn [after_wipe stdout]. by rewrite <- !app_assoc.
Qed.

Lemma handle_tasks_rebuilds_namespace_witness :
  exists w',
    handle_tasks (TASKS true) stale_task_world = (w', Returned tt) /\
    periodic_tasks w' =
      (wipe (periodic_tasks stale_task_world) ++
       map (fun d => declared_row d
                       (schedule_position (declared_schedule d) (interval_schedules w')))
         (TASKS true))%list /\
    stdout w' =
      (stdout stale_task_world ++
       [(SUCCESS, "Removing old tasks"); (SUCCESS, "Old tasks were removed")] ++
       map (fun d => (SUCCESS, "Created Periodic Task " +:+ CeleryTaskConfiguration.name d))
         (TASKS true))%list.
Proof.
  apply (handle_tasks_rebuilds_namespace (TASKS true) stale_task_world).
  - repeat constructor.
  - apply (bool_decide_unpack _). vm_compute. exact I.
  - apply (bool_decide_unpack _). vm_compute. exact I.
Defined.

(** When a name is declared more than once, the one record of that name
    holds the label, the schedule and the flag of its last declaration. *)
Theorem last_declaration_of_a_name_wins
  (pre : list CeleryTaskConfiguration.t) (d : CeleryTaskConfiguration.t)
  (post : list CeleryTaskConfiguration.t) (w : World) :
  lookups_unique (pre ++ d :: post) w ->
  CeleryTaskConfiguration.name d ∉ map CeleryTaskConfiguration.name post ->
  exists w' s pk,
    handle_tasks (pre ++ d :: post) w = (w', Returned tt) /\
    interval_schedules w' !! s = Some (declared_schedule d) /\
    periodic_tasks w' !! pk = Some (declared_row d s) /\
    key_count (CeleryTaskConfiguration.name d) (periodic_tasks w') = 1%nat.
Proof.
  intros Hu Hd.
  pose proof (handle_tasks_one_record (pre ++ d :: post) w d Hu) as Hone.
  rewrite (handle_tasks_run _ _ Hu).
  unfold lookups_unique, loop_lookups_unique in Hu.
  apply Forall_app in Hu as [_ Hu].
  rewrite foldl_app in Hone |- *.
  destruct (tasks_loop_head_row d post
              (foldl (fun w d => task_step d w) (after_wipe w) pre))
    as (HS & pk & HT); [|done|].
  { by apply (tasks_loop_lookups_unique pre (d :: post)). }
  eexists _, _, pk. split; [done|]. split; [exact HS|]. split; [exact HT|].
  apply Hone. apply elem_of_app. right. by left.
Qed.

Lemma last_declaration_of_a_name_wins_witness :
  exists w' s pk,
    handle_tasks repeated_tasks stale_task_world = (w', Returned tt) /\
    interval_schedules w' !! s =
      Some {| IntervalSchedule.every := 1; IntervalSchedule.period := HOURS |} /\
    periodic_tasks w' !! pk =
      Some {| PeriodicTask.task := "safe_transaction_service.history.tasks.check_reorgs_task";
              PeriodicTask.name := "Check Reorgs every hour";
              PeriodicTask.interval := s;
              PeriodicTask.enabled := false |} /\
    key_count "safe_transaction_service.history.tasks.check_reorgs_task"
      (periodic_tasks w') = 1%nat.
Proof.
  apply (last_declaration_of_a_name_wins
           [mk_task "safe_transaction_service.history.tasks.check_reorgs_task"
              "Check Reorgs" 3 MINUTES true]
           (mk_task "safe_transaction_service.history.tasks.check_reorgs_task"
              "Check Reorgs every hour" 1 HOURS false)
           [] stale_task_world).
  - unfold lookups_unique, loop_lookups_unique.
    apply (bool_decide_unpack _). vm_compute. exact I.
  - apply not_elem_of_nil.
Defined.

(** ** A network that only one table declares *)

(** The warning is written unless the network is a key of both tables.  For
    a network that [master_copies] declares and [proxy_factories_decl] does
    not, a run sets up every declared master copy, leaves the proxy-factory
    registry as it was, and still writes that it cannot detect a valid
    network. *)
Theorem handle_network_of_one_table
  (tasks : list CeleryTaskConfiguration.t)
  (master_copies : gmap string (list (string * Z * string)))
  (proxy_factories_decl : gmap string (list (string * Z)))
  (network_id : string) (decls : list (string * Z * string)) (w : World) :
  lookups_unique tasks w ->
  master_copies !! network_id = Some decls ->
  proxy_factories_decl !! network_id = None ->
  let run := handle_with tasks master_copies proxy_factories_decl (Returned network_id) in
  (run w).2 = Returned tt /\
  (forall a, is_Some (safe_master_copies (run w).1 !! a) <->
     is_Some (safe_master_copies w !! a) \/
     a ∈ map (fun d : string * Z * string => d.1.1) decls) /\
  proxy_factories (run w).1 = proxy_factories w /\
  (SUCCESS, "Setting up " +:+ network_id +:+ " safe addresses") ∈ run_output run w /\
  UNRECOGNIZED_NETWORK ∈ run_output run w.
Proof.
  intros Hu Hmc Hpf run.
  assert (dict_contains network_id master_copies = true) as Hin.
  { rewrite dict_contains_lookup, Hmc. done. }
  assert (dict_contains network_id proxy_factories_decl = false) as Hout.
  { rewrite dict_contains_lookup, Hpf. done. }
  destruct (tasks_loop_registries tasks (after_wipe w)) as [Hsm Hp].
  cbn [after_wipe safe_master_copies proxy_factories] in Hsm, Hp.
  assert (run_output run w =
          (([(SUCCESS, "Removing old tasks"); (SUCCESS, "Old tasks were removed")] ++
            drop (length (stdout (after_wipe w)))
              (stdout (foldl (fun w d => task_step d w) (after_wipe w) tasks))) ++
           address_messages master_copies proxy_factories_decl network_id)%list)
    as Houtput.
  { apply run_output_app. subst run. rewrite handle_with_run by done.
    cbn [addresses_result fst addresses_world stdout].
    destruct (tasks_loop_stdout tasks (after_wipe w)) as (cs & _ & ->).
    rewrite drop_app_length. cbn [after_wipe stdout]. by rewrite <- !app_assoc. }
  rewrite Houtput. subst run. rewrite handle_with_run by done.
  cbn [addresses_result fst snd addresses_world safe_master_copies proxy_factories].
  rewrite Hmc, Hpf, Hsm, Hp. cbn [default foldl].
  split; [done|]. split; [|split; [done|]].
  - intros a. rewrite master_copies_lookup. apply master_copy_entries_is_Some.
  - unfold address_messages. rewrite Hin, Hout. cbn [andb negb].
    split; apply elem_of_app; right; set_solver.
Qed.

Lemma handle_network_of_one_table_witness :
  let run := handle_with (TASKS false) MASTER_COPIES ∅ (Returned "7001") in
  (run stale_task_world).2 = Returned tt /\
  (forall a, is_Some (safe_master_copies (run stale_task_world).1 !! a) <->
     is_Some (safe_master_copies stale_task_world !! a) \/
     a ∈ map (fun d : string * Z * string => d.1.1)
           [ ("0xd9Db270c1B5E3Bd161E8c8503c55cEABeE709552", 9242, "1.3.0");
             ("0x3E5c63644E683549055b9Be8653de26E0B4CD36E", 9239, "1.3.0+L2") ]) /\
  proxy_factories (run stale_task_world).1 = proxy_factories stale_task_world /\
  (SUCCESS, "Setting up " +:+ "7001" +:+ " safe addresses") ∈
    run_output run stale_task_world /\
  UNRECOGNIZED_NETWORK ∈ run_output run stale_task_world.
Proof.
  apply (handle_network_of_one_table (TASKS false) MASTER_COPIES ∅ "7001"
           [ ("0xd9Db270c1B5E3Bd161E8c8503c55cEABeE709552", 9242, "1.3.0");
             ("0x3E5c63644E683549055b9Be8653de26E0B4CD36E", 9239, "1.3.0+L2") ]
           stale_task_world).
  - unfold lookups_unique, loop_lookups_unique.
    apply (bool_decide_unpack _). vm_compute. exact I.
  - reflexivity.
  - reflexivity.
Defined.

(** ** The setting [ETH_L2_NETWORK] *)

(** After the loop the one record of a declared name carries the declared
    flag. *)
Lemma declared_record_enabled tasks w d :
  lookups_unique tasks w ->
  NoDup (map CeleryTaskConfiguration.name tasks) ->
  d ∈ tasks ->
  only_record_enabled (CeleryTaskConfiguration.name d) (CeleryTaskConfiguration.enabled d)
    (periodic_tasks (foldl (fun w d => task_step d w) (after_wipe w) tasks)).
Proof.
  intros Hu Hnames Hd.
  pose proof (handle_tasks_one_record tasks w d Hu Hd) as Hone.
  destruct (tasks_loop_declared_rows tasks (after_wipe w) d Hu Hnames Hd)
    as (_ & pk & Hpk).
  split; [exact Hone|]. split.
  - eexists pk, _. split; [exact Hpk|]. done.
  - intros r [j Hj]%list_elem_of_lookup_1 Hkey.
    assert (j = pk) as ->.
    { eapply key_count_lookup; [|exact Hj|exact Hpk|exact Hkey|done].
      rewrite Hone. lia. }
    rewrite Hpk in Hj. injection Hj as <-. done.
Qed.

(** After a run of the task phase on the declarations of the command, the
    task table holds exactly one record of each of the three indexers; the
    indexer of internal transactions is enabled exactly when the setting
    [ETH_L2_NETWORK] is off, and the indexers of Safe events and of new
    proxies exactly when it is on. *)
Theorem l2_setting_selects_indexers (ETH_L2_NETWORK : bool) (w : World) :
  lookups_unique (TASKS ETH_L2_NETWORK) w ->
  exists w',
    handle_tasks (TASKS ETH_L2_NETWORK) w = (w', Returned tt) /\
    only_record_enabled "safe_transaction_service.history.tasks.index_internal_txs_task"
      (negb ETH_L2_NETWORK) (periodic_tasks w') /\
    only_record_enabled "safe_transaction_service.history.tasks.index_safe_events_task"
      ETH_L2_NETWORK (periodic_tasks w') /\
    only_record_enabled "safe_transaction_service.history.tasks.index_new_proxies_task"
      ETH_L2_NETWORK (periodic_tasks w').
Proof.
  intros Hu. eexists. split; [by apply handle_tasks_run|].
  pose proof (TASKS_names_NoDup ETH_L2_NETWORK) as Hnames.
  split; [|split].
  - apply (declared_record_enabled (TASKS ETH_L2_NETWORK) w
             (mk_task "safe_transaction_service.history.tasks.index_internal_txs_task"
                "Index Internal Txs" 13 SECONDS (negb ETH_L2_NETWORK)) Hu Hnames).
    unfold TASKS. do 2 apply list_elem_of_further. apply list_elem_of_here.
  - apply (declared_record_enabled (TASKS ETH_L2_NETWORK) w
             (mk_task "safe_transaction_service.history.tasks.index_safe_events_task"
                "Index Safe events (L2)" 13 SECONDS ETH_L2_NETWORK) Hu Hnames).
    unfold TASKS. do 3 apply list_elem_of_further. apply list_elem_of_here.
  - apply (declared_record_enabled (TASKS ETH_L2_NETWORK) w
             (mk_task "safe_transaction_service.history.tasks.index_new_proxies_task"
                "Index new Proxies" 15 SECONDS ETH_L2_NETWORK) Hu Hnames).
    unfold TASKS. do 4 apply list_elem_of_further. apply list_elem_of_here.
Qed.

Lemma l2_setting_selects_indexers_witness :
  exists w',
    handle_tasks (TASKS true) stale_task_world = (w', Returned tt) /\
    only_record_enabled "safe_transaction_service.history.tasks.index_internal_txs_task"
      false (periodic_tasks w') /\
    only_record_enabled "safe_transaction_service.history.tasks.index_safe_events_task"
      true (periodic_tasks w') /\
    only_record_enabled "safe_transaction_service.history.tasks.index_new_proxies_task"
      true (periodic_tasks w').
Proof.
  apply (l2_setting_selects_indexers true stale_task_world).
  unfold lookups_unique, loop_lookups_unique.
  apply (bool_decide_unpack _). vm_compute. exact I.
Defined.
